(** * The defect classification engine of [ml_defect_detector_simple.py]

    A shallow embedding of [SimpleMLDefectDetector]: sentence
    segmentation, the rule-based pattern classifier, confidence scoring,
    severity inference and the merge of rule-based and ML results.

    Modelling conventions.
    - A Python [str] is a [list ascii]; a character is a code point in
      the range U+0000..U+00FF, and [lower], [strip] and [len] follow
      Python's behaviour on that range.
    - A Python [float] is a binary64 number of [PrimFloat], with the
      same rounding, comparisons and NaN as the source's arithmetic.
    - An exception is a value [Raise e] of the result type [py]; a
      [try ... except Exception] block is [try_except].
    - [dict]s are association lists in insertion order, which is the
      iteration order of [dict.items()]. *)

From Stdlib Require Import Ascii String List Bool Arith Lia ZArith Floats.
Import ListNotations.

(* Decimal literals denote the nearest binary64 value, as in Python. *)
#[local] Set Warnings "-inexact-float".

(** ** Strings *)

Definition str := list ascii.

(** String literals of the source, as code-point lists. *)
Definition lit (text : string) : str := list_ascii_of_string text.

Module Str.

(** [str.isspace] on one character of U+0000..U+00FF: TAB..CR,
    FS..US, SPACE, NEL and NBSP. *)
Definition isspace (c : ascii) : bool :=
  let n := nat_of_ascii c in
  ((9 <=? n) && (n <=? 13)) || ((28 <=? n) && (n <=? 32))
  || (n =? 133) || (n =? 160).

(** Characters with a lower-case mapping in U+0000..U+00FF: A..Z and
    U+00C0..U+00DE without the multiplication sign U+00D7. *)
Definition isupper (c : ascii) : bool :=
  let n := nat_of_ascii c in
  ((65 <=? n) && (n <=? 90))
  || ((192 <=? n) && (n <=? 222) && negb (n =? 215)).

Definition lower_char (c : ascii) : ascii :=
  if isupper c then ascii_of_nat (nat_of_ascii c + 32) else c.

(** [str.lower()] *)
Definition lower (x : str) : str := map lower_char x.

(** [str.lstrip()], [str.rstrip()] and [str.strip()] *)
Fixpoint lstrip (x : str) : str :=
  match x with
  | [] => []
  | c :: x' => if isspace c then lstrip x' else x
  end.

Definition rstrip (x : str) : str := rev (lstrip (rev x)).

Definition strip (x : str) : str := rstrip (lstrip x).

(** [len] *)
Definition len (x : str) : nat := List.length x.

(** [x.startswith(p)] *)
Fixpoint startswith (p x : str) : bool :=
  match p, x with
  | [], _ => true
  | _ :: _, [] => false
  | a :: p', b :: x' => Ascii.eqb a b && startswith p' x'
  end.

(** [p in x] for two strings: substring containment. *)
Fixpoint contains (p x : str) : bool :=
  startswith p x ||
  match x with
  | [] => false
  | _ :: x' => contains p x'
  end.

Definition eqb (x y : str) : bool :=
  if list_eq_dec ascii_dec x y then true else false.

End Str.

(** ** Exceptions *)

Inductive exn : Type :=
| re_error        (* re.error: a pattern that does not compile *)
| IndexError      (* result[0] on an empty list *)
| ExternalError.  (* anything raised inside the transformers pipeline *)

Inductive py (A : Type) : Type :=
| Ok (a : A)
| Raise (e : exn).

Arguments Ok {A} a.
Arguments Raise {A} e.

Definition bind {A B : Type} (m : py A) (k : A -> py B) : py B :=
  match m with
  | Ok a => k a
  | Raise e => Raise e
  end.

Notation "x <- m ;; k" := (bind m (fun x => k))
  (at level 61, m at next level, right associativity).

(** [try: body  except Exception: handler] *)
Definition try_except {A : Type} (body : py A) (handler : A) : A :=
  match body with
  | Ok a => a
  | Raise _ => handler
  end.

(** ** The regular expressions of the detector

    Every pattern of the detector is a concatenation of literal
    characters and bracketed character sets, each optionally followed by
    [?].  [Re.compile] reads that fragment of Python's syntax from the
    pattern text; a pattern that is malformed, or that uses syntax
    outside the fragment, does not compile. *)

Module Re.

Inductive atom : Type :=
| Lit (c : ascii)
| Class (members : list ascii).

Record item : Type := mkItem { it_atom : atom; it_optional : bool }.

Definition is_meta (c : ascii) : bool :=
  existsb (Ascii.eqb c) (lit ".^$*+?{}[]\|()").

Definition starts_with_char (c : ascii) (x : str) : bool :=
  match x with
  | d :: _ => Ascii.eqb c d
  | [] => false
  end.

(** One left-to-right pass.  [inclass] holds the members read so far
    (most recent first) while inside brackets; [acc] holds the items
    read so far (most recent first). *)
Fixpoint compile_from (inclass : option (list ascii)) (acc : list item)
         (p : str) : option (list item) :=
  match p with
  | [] =>
      match inclass with
      | None => Some (rev acc)
      | Some _ => None
      end
  | c :: p' =>
      match inclass with
      | Some members =>
          if Ascii.eqb c "]" then
            match members with
            | [] => None
            | _ :: _ =>
                compile_from None (mkItem (Class (rev members)) false :: acc) p'
            end
          else if Ascii.eqb c "\" || Ascii.eqb c "[" then None
          else if Ascii.eqb c "^" && match members with [] => true | _ => false end
          then None
          else if Ascii.eqb c "-"
                  && match members with [] => false | _ => true end
                  && negb (starts_with_char "]" p')
          then None
          else compile_from (Some (c :: members)) acc p'
      | None =>
          if Ascii.eqb c "[" then compile_from (Some []) acc p'
          else if Ascii.eqb c "?" then
            match acc with
            | mkItem a false :: acc' =>
                compile_from None (mkItem a true :: acc') p'
            | _ => None
            end
          else if is_meta c then None
          else compile_from None (mkItem (Lit c) false :: acc) p'
      end
  end.

Definition compile (pattern : str) : option (list item) :=
  compile_from None [] pattern.

Definition atom_matches (a : atom) (c : ascii) : bool :=
  match a with
  | Lit x => Ascii.eqb x c
  | Class members => existsb (Ascii.eqb c) members
  end.

(** Does some prefix of [x] match the items [r]? *)
Fixpoint match_here (r : list item) (x : str) : bool :=
  match r with
  | [] => true
  | it :: r' =>
      match x with
      | c :: x' => atom_matches (it_atom it) c && match_here r' x'
      | [] => false
      end
      || (it_optional it && match_here r' x)
  end.

(** Does [r] match at some position of [x]? *)
Fixpoint search_from (r : list item) (x : str) : bool :=
  match_here r x ||
  match x with
  | [] => false
  | _ :: x' => search_from r x'
  end.

(** [re.search(pattern, x)], as the truth value of its result: a match
    object is truthy and [None] is falsy. *)
Definition search (pattern x : str) : py bool :=
  match compile pattern with
  | None => Raise re_error
  | Some r => Ok (search_from r x)
  end.

(** [re.split(r'[.!?]+', x)]: [x] cut at every maximal run of
    sentence-terminal punctuation.  A run at the start or at the end of
    [x] leaves an empty piece there. *)
Definition is_terminal (c : ascii) : bool :=
  Ascii.eqb c "." || Ascii.eqb c "!" || Ascii.eqb c "?".

Fixpoint split_terminal (x : str) : list str :=
  match x with
  | [] => [[]]
  | c :: x' =>
      let pieces := split_terminal x' in
      if is_terminal c then
        if match x' with d :: _ => is_terminal d | [] => false end
        then pieces
        else [] :: pieces
      else
        match pieces with
        | piece :: rest => (c :: piece) :: rest
        | [] => [[c]]
        end
  end.

End Re.

(** ** Data model *)

Inductive Category : Type :=
| Cracks | Damp | Corrosion | Mold | Structural | Electrical | Plumbing.

Inductive Method : Type :=
| rule_based | ml_enhanced | hybrid_ml_rule | ml_only.

Inductive Severity : Type := High | Medium | Low.

Definition Category_eq_dec (a b : Category) : {a = b} + {a <> b}.
Proof. decide equality. Defined.

Definition Category_eqb (a b : Category) : bool :=
  if Category_eq_dec a b then true else false.

(** The dictionaries built by [_rule_based_classify] and
    [_ml_classify_sentence]: keys ['type'], ['confidence'], ['method']. *)
Record RawResult : Type := mkRaw {
  r_type : Category;
  r_confidence : float;
  r_method : Method
}.

(** The dictionaries built by [_combine_results]. *)
Record Finding : Type := mkFinding {
  f_type : Category;
  f_sentence : str;
  f_confidence : float;
  f_severity : Severity;
  f_detection_method : Method
}.

(** One entry of the list returned by the transformers pipeline. *)
Record Prediction : Type := mkPrediction {
  label : str;
  score : float
}.

(** The text-classification pipeline: an external call that returns a
    list of predictions or raises. *)
Definition Pipeline : Type := str -> py (list Prediction).

(** The attributes of a [SimpleMLDefectDetector] instance. *)
Record Detector : Type := mkDetector {
  ml_available : bool;
  classifier : option Pipeline;
  defect_patterns : list (Category * list str)
}.

(** Python's [min(a, b)] on two numbers: [b] when [b < a], else [a]. *)
Definition py_min (a b : float) : float := if (b <? a)%float then b else a.

(** ** The detector *)

Definition rule_patterns : list (Category * list str) :=
  [ (Cracks,
     [ lit "crack[s]?"; lit "fissure[s]?"; lit "split[s]?"; lit "fracture[s]?";
       lit "settlement[- ]crack"; lit "hairline crack"; lit "structural crack" ]);
    (Damp,
     [ lit "damp[ness]?"; lit "moist[ure]?"; lit "wet[ness]?"; lit "humid[ity]?";
       lit "water damage"; lit "condensation"; lit "moisture buildup" ]);
    (Corrosion,
     [ lit "rust[ing]?"; lit "corros[ion|ive]"; lit "oxid[ation|ized]";
       lit "corroded"; lit "deterioration"; lit "metal damage" ]);
    (Mold,
     [ lit "mold"; lit "mould"; lit "fungus"; lit "mildew"; lit "fungal";
       lit "spores"; lit "black spots" ]);
    (Structural,
     [ lit "structural"; lit "foundation"; lit "beam[s]?"; lit "support";
       lit "deflection"; lit "settlement"; lit "load[- ]bearing";
       lit "structural stress"; lit "structural damage" ]);
    (Electrical,
     [ lit "electrical"; lit "wiring"; lit "circuit"; lit "outlet[s]?";
       lit "panel"; lit "GFCI"; lit "electrical fault"; lit "electrical safety";
       lit "power"; lit "voltage"; lit "electrical hazard" ]);
    (Plumbing,
     [ lit "plumbing"; lit "pipe[s]?"; lit "leak[age]?"; lit "drain[age]?";
       lit "water pressure"; lit "joint connection"; lit "blockage";
       lit "water system"; lit "drainage system" ]) ].

(** [SimpleMLDefectDetector.__init__].  [ML_AVAILABLE] is the module
    flag set by the guarded import; [pipeline] is the outcome of the
    call that builds the classifier, which runs only when the flag is
    set. *)
Definition __init__ (ML_AVAILABLE : bool) (pipeline : py Pipeline) : Detector :=
  let loaded :=
    if ML_AVAILABLE then
      match pipeline with
      | Ok c => (true, Some c)
      | Raise _ => (false, None)
      end
    else (false, None) in
  {| ml_available := fst loaded;
     classifier := snd loaded;
     defect_patterns := rule_patterns |}.

(** [_split_into_sentences] *)
Definition _split_into_sentences (text : str) : list str :=
  let sentences := Re.split_terminal text in
  map Str.strip
      (filter (fun x => 15 <? Str.len (Str.strip x)) sentences).

(** [_calculate_rule_confidence] *)
Definition specificity_boosts : list (str * float) :=
  [ (lit "structural crack", 0.2%float);
    (lit "water damage", 0.2%float);
    (lit "electrical hazard", 0.25%float);
    (lit "foundation", 0.15%float);
    (lit "safety hazard", 0.2%float) ].

(** The loop over [specificity_boosts.items()], left by [break] at the
    first phrase found. *)
Fixpoint boost_loop (boosts : list (str * float)) (sentence : str)
         (base_confidence : float) : py float :=
  match boosts with
  | [] => Ok base_confidence
  | (specific_pattern, boost) :: rest =>
      found <- Re.search specific_pattern sentence ;;
      if found then Ok (base_confidence + boost)%float
      else boost_loop rest sentence base_confidence
  end.

Definition _calculate_rule_confidence (pattern sentence : str) : py float :=
  base_confidence <- boost_loop specificity_boosts sentence 0.7%float ;;
  Ok (py_min 0.9 base_confidence).

(** [_rule_based_classify]: the inner loop over one category's patterns,
    left by [break] at the first pattern found. *)
Fixpoint classify_patterns (defect_type : Category) (patterns : list str)
         (sentence_lower : str) : py (option RawResult) :=
  match patterns with
  | [] => Ok None
  | pattern :: rest =>
      found <- Re.search pattern sentence_lower ;;
      if found then
        confidence <- _calculate_rule_confidence pattern sentence_lower ;;
        Ok (Some {| r_type := defect_type;
                    r_confidence := confidence;
                    r_method := rule_based |})
      else classify_patterns defect_type rest sentence_lower
  end.

(** The outer loop over [defect_patterns.items()]; [results] holds what
    has been appended so far. *)
Fixpoint classify_items (items : list (Category * list str))
         (sentence_lower : str) (results : list RawResult)
  : py (list RawResult) :=
  match items with
  | [] => Ok results
  | (defect_type, patterns) :: rest =>
      hit <- classify_patterns defect_type patterns sentence_lower ;;
      match hit with
      | Some r => classify_items rest sentence_lower (results ++ [r])
      | None => classify_items rest sentence_lower results
      end
  end.

Definition _rule_based_classify (self : Detector) (sentence : str)
  : py (list RawResult) :=
  let sentence_lower := Str.lower sentence in
  classify_items (defect_patterns self) sentence_lower [].

(** [_get_primary_defect_type] *)
Fixpoint any_pattern (patterns : list str) (sentence_lower : str) : py bool :=
  match patterns with
  | [] => Ok false
  | pattern :: rest =>
      found <- Re.search pattern sentence_lower ;;
      if found then Ok true else any_pattern rest sentence_lower
  end.

Fixpoint primary_items (items : list (Category * list str))
         (sentence_lower : str) : py (option Category) :=
  match items with
  | [] => Ok None
  | (defect_type, patterns) :: rest =>
      found <- any_pattern patterns sentence_lower ;;
      if found then Ok (Some defect_type)
      else primary_items rest sentence_lower
  end.

Definition _get_primary_defect_type (self : Detector) (sentence : str)
  : py (option Category) :=
  let sentence_lower := Str.lower sentence in
  primary_items (defect_patterns self) sentence_lower.

(** [_determine_severity] *)
Definition high_severity_keywords : list str :=
  [ lit "immediate"; lit "urgent"; lit "critical"; lit "dangerous";
    lit "hazard"; lit "safety"; lit "structural damage"; lit "major";
    lit "severe" ].

Definition medium_severity_keywords : list str :=
  [ lit "significant"; lit "moderate"; lit "attention"; lit "monitor";
    lit "repair"; lit "maintenance" ].

(** [for keyword in keywords: if keyword in sentence_lower: return ...] *)
Fixpoint keyword_loop (keywords : list str) (sentence_lower : str) : bool :=
  match keywords with
  | [] => false
  | keyword :: rest =>
      if Str.contains keyword sentence_lower then true
      else keyword_loop rest sentence_lower
  end.

Definition _determine_severity (sentence : str) : Severity :=
  let sentence_lower := Str.lower sentence in
  if keyword_loop high_severity_keywords sentence_lower then High
  else if keyword_loop medium_severity_keywords sentence_lower then Medium
  else Low.

(** [_ml_classify_sentence].  [ml_body] is the body of the [try] block:
    the pipeline call, [result[0]] and the pattern search may raise. *)
Definition ml_body (self : Detector) (pipeline : Pipeline) (sentence : str)
  : py (option RawResult) :=
  result <- pipeline sentence ;;
  first <- match result with
           | r0 :: _ => Ok r0
           | [] => Raise IndexError
           end ;;
  if Str.eqb (label first) (lit "NEGATIVE") then
    let confidence := score first in
    rule_type <- _get_primary_defect_type self sentence ;;
    match rule_type with
    | Some t =>
        Ok (Some {| r_type := t;
                    r_confidence := py_min 0.95 (confidence * 1.2)%float;
                    r_method := ml_enhanced |})
    | None => Ok None
    end
  else Ok None.

Definition _ml_classify_sentence (self : Detector) (sentence : str)
  : option RawResult :=
  match classifier self with
  | None => None
  | Some pipeline => try_except (ml_body self pipeline sentence) None
  end.

(** [_combine_results].  A dictionary is truthy; a list is truthy when
    it is not empty. *)
Definition hybrid_or_rule (ml_results : RawResult) (sentence : str)
           (rule_result : RawResult) : Finding :=
  if Category_eqb (r_type rule_result) (r_type ml_results) then
    {| f_type := r_type rule_result;
       f_sentence := sentence;
       f_confidence :=
         py_min 0.95
                ((r_confidence ml_results + r_confidence rule_result) / 2
                 + 0.1)%float;
       f_severity := _determine_severity sentence;
       f_detection_method := hybrid_ml_rule |}
  else
    {| f_type := r_type rule_result;
       f_sentence := sentence;
       f_confidence := r_confidence rule_result;
       f_severity := _determine_severity sentence;
       f_detection_method := rule_based |}.

Definition rule_only (sentence : str) (rule_result : RawResult) : Finding :=
  {| f_type := r_type rule_result;
     f_sentence := sentence;
     f_confidence := r_confidence rule_result;
     f_severity := _determine_severity sentence;
     f_detection_method := rule_based |}.

Definition _combine_results (ml_results : option RawResult)
           (rule_results : list RawResult) (sentence : str) : list Finding :=
  match ml_results, rule_results with
  | Some ml, _ :: _ => map (hybrid_or_rule ml sentence) rule_results
  | Some ml, [] =>
      [ {| f_type := r_type ml;
           f_sentence := sentence;
           f_confidence := r_confidence ml;
           f_severity := _determine_severity sentence;
           f_detection_method := ml_only |} ]
  | None, _ :: _ => map (rule_only sentence) rule_results
  | None, [] => []
  end.

(** [detect_defects]: the loop over the sentences, then the method. *)
Fixpoint detect_loop (self : Detector) (sentences : list str)
         (defects : list Finding) : py (list Finding) :=
  match sentences with
  | [] => Ok defects
  | sentence :: rest =>
      if Str.len (Str.strip sentence) <? 15 then detect_loop self rest defects
      else
        let ml_results :=
          if ml_available self
             && match classifier self with Some _ => true | None => false end
          then _ml_classify_sentence self sentence
          else None in
        rule_results <- _rule_based_classify self sentence ;;
        let combined_results :=
          _combine_results ml_results rule_results sentence in
        detect_loop self rest (defects ++ combined_results)
  end.

Definition detect_defects (self : Detector) (text : str)
  : py (list Finding) :=
  if match text with [] => true | _ => false end
     || (Str.len (Str.strip text) <? 20)
  then Ok []
  else
    let sentences := _split_into_sentences text in
    detect_loop self sentences [].

(** ** The wrapper class [HybridDefectDetector] *)

Module HybridDefectDetector.

(** The instance holds one attribute, [detector]. *)
Record t : Type := mk { detector : Detector }.

(** The dictionary returned by [get_capabilities]. *)
Record Capabilities : Type := mkCapabilities {
  cap_ml_available : bool;
  cap_rule_based_available : bool;
  cap_hybrid_mode : bool
}.

(** [__init__] builds a [SimpleMLDefectDetector]; the two arguments are
    what that constructor meets: the import flag and the outcome of
    loading the pipeline. *)
Definition __init__ (ML_AVAILABLE : bool) (pipeline : py Pipeline) : t :=
  {| detector := __init__ ML_AVAILABLE pipeline |}.

Definition detect_defects (self : t) (text : str) : py (list Finding) :=
  detect_defects (detector self) text.

Definition get_capabilities (self : t) : Capabilities :=
  {| cap_ml_available := ml_available (detector self);
     cap_rule_based_available := true;
     cap_hybrid_mode := ml_available (detector self) |}.

End HybridDefectDetector.

(** ** Searching with [re.IGNORECASE]

    On code points U+0000..U+00FF a character of the text matches a
    character of the pattern when their lower-case forms are equal.
    The model stops at U+00FF: beyond it Python also lets U+017F match
    s, U+0130 and U+0131 match i, and U+212A match k, which [lower]
    does not reproduce.  What is stated about this search is stated for
    text of code points up to U+00FF. *)

Module ReIgnoreCase.

Definition atom_matches (a : Re.atom) (c : ascii) : bool :=
  match a with
  | Re.Lit x => Ascii.eqb (Str.lower_char x) (Str.lower_char c)
  | Re.Class members =>
      existsb (fun m => Ascii.eqb (Str.lower_char c) (Str.lower_char m))
              members
  end.

Fixpoint match_here (r : list Re.item) (x : str) : bool :=
  match r with
  | [] => true
  | it :: r' =>
      match x with
      | c :: x' => atom_matches (Re.it_atom it) c && match_here r' x'
      | [] => false
      end
      || (Re.it_optional it && match_here r' x)
  end.

Fixpoint search_from (r : list Re.item) (x : str) : bool :=
  match_here r x ||
  match x with
  | [] => false
  | _ :: x' => search_from r x'
  end.

(** [re.search(pattern, x, re.IGNORECASE)], as a truth value. *)
Definition search (pattern x : str) : py bool :=
  match Re.compile pattern with
  | None => Raise re_error
  | Some r => Ok (search_from r x)
  end.

End ReIgnoreCase.

(** ** The caller [app_fixed.py] *)

Module AppFixed.

(** [app.config['ALLOWED_EXTENSIONS']], a set. *)
Definition ALLOWED_EXTENSIONS : list str :=
  [ lit "pdf"; lit "docx"; lit "doc" ].

(** [x.rsplit(sep, 1)] for a one-character [sep]: [x] cut at its last
    [sep], or [x] alone when it holds none. *)
Fixpoint rsplit1 (sep : ascii) (x : str) : list str :=
  match x with
  | [] => [[]]
  | c :: x' =>
      match rsplit1 sep x' with
      | [head; tail] => [c :: head; tail]
      | _ => if Ascii.eqb c sep then [[]; x'] else [c :: x']
      end
  end.

(** [l[i]] *)
Definition index {A : Type} (l : list A) (i : nat) : py A :=
  match nth_error l i with
  | Some a => Ok a
  | None => Raise IndexError
  end.

(** [allowed_file]: [A and B] evaluates [B] only when [A] is true. *)
Definition allowed_file (filename : str) : py bool :=
  if Str.contains (lit ".") filename then
    extension <- index (rsplit1 "." filename) 1 ;;
    Ok (existsb (Str.eqb (Str.lower extension)) ALLOWED_EXTENSIONS)
  else Ok false.

(** The dictionaries built by [detect_defects_fallback]; the detection
    method is always the string ['rule_based_fallback']. *)
Inductive FallbackMethod : Type := rule_based_fallback.

Record FallbackFinding : Type := mkFallback {
  ff_type : Category;
  ff_sentence : str;
  ff_confidence : float;
  ff_severity : Severity;
  ff_detection_method : FallbackMethod
}.

(** [x.split(sep)] for a one-character [sep]: a cut at every [sep]. *)
Fixpoint split_on (sep : ascii) (x : str) : list str :=
  match x with
  | [] => [[]]
  | c :: x' =>
      if Ascii.eqb c sep then [] :: split_on sep x'
      else
        match split_on sep x' with
        | piece :: rest => (c :: piece) :: rest
        | [] => [[c]]
        end
  end.

(** The pattern table local to [detect_defects_fallback]. *)
Definition defect_patterns : list (Category * list str) :=
  [ (Cracks,
     [ lit "crack[s]?"; lit "fissure[s]?"; lit "split[s]?";
       lit "fracture[s]?" ]);
    (Damp,
     [ lit "damp[ness]?"; lit "moist[ure]?"; lit "wet[ness]?";
       lit "humid[ity]?" ]);
    (Corrosion,
     [ lit "rust[ing]?"; lit "corros[ion|ive]"; lit "oxid[ation|ized]" ]);
    (Mold, [ lit "mold"; lit "mould"; lit "fungus"; lit "mildew" ]);
    (Structural,
     [ lit "structural"; lit "foundation"; lit "beam"; lit "support" ]);
    (Electrical,
     [ lit "electrical"; lit "wiring"; lit "circuit"; lit "panel" ]);
    (Plumbing, [ lit "plumbing"; lit "pipe"; lit "leak"; lit "drain" ]) ].

(** The loop over one category's patterns, left by [break] at the first
    pattern found. *)
Fixpoint fallback_patterns (defect_type : Category) (patterns : list str)
         (sentence : str) : py (option FallbackFinding) :=
  match patterns with
  | [] => Ok None
  | pattern :: rest =>
      found <- ReIgnoreCase.search pattern sentence ;;
      if found then
        Ok (Some {| ff_type := defect_type;
                    ff_sentence := sentence;
                    ff_confidence := 0.7%float;
                    ff_severity := Medium;
                    ff_detection_method := rule_based_fallback |})
      else fallback_patterns defect_type rest sentence
  end.

(** The loop over [defect_patterns.items()] for one sentence. *)
Fixpoint fallback_items (items : list (Category * list str))
         (sentence : str) (defects : list FallbackFinding)
  : py (list FallbackFinding) :=
  match items with
  | [] => Ok defects
  | (defect_type, patterns) :: rest =>
      hit <- fallback_patterns defect_type patterns sentence ;;
      match hit with
      | Some d => fallback_items rest sentence (defects ++ [d])
      | None => fallback_items rest sentence defects
      end
  end.

(** The loop over the sentences. *)
Fixpoint fallback_sentences (sentences : list str)
         (defects : list FallbackFinding) : py (list FallbackFinding) :=
  match sentences with
  | [] => Ok defects
  | sentence :: rest =>
      let sentence := Str.strip sentence in
      if Str.len sentence <? 10 then fallback_sentences rest defects
      else
        defects' <- fallback_items defect_patterns sentence defects ;;
        fallback_sentences rest defects'
  end.

(** [detect_defects_fallback] *)
Definition detect_defects_fallback (text : str) : py (list FallbackFinding) :=
  let sentences := split_on "." text in
  fallback_sentences sentences [].

End AppFixed.

(** ** Notions used in the statements *)

(** [p] occurs in [x] as a contiguous block. *)
Definition substring (p x : str) : Prop :=
  exists pre post, x = pre ++ p ++ post.

Definition whitespace_only (x : str) : Prop :=
  Forall (fun c => Str.isspace c = true) x.

(** A pattern text that [Re.compile] accepts, and a table of them. *)
Definition compiles (p : str) : bool :=
  match Re.compile p with
  | Some _ => true
  | None => false
  end.

Definition table_compiles (table : list (Category * list str)) : bool :=
  forallb (fun entry => forallb compiles (snd entry)) table.

(** The truth value of [re.search(p, x)] for a pattern that compiles. *)
Definition found (p x : str) : bool :=
  match Re.compile p with
  | Some r => Re.search_from r x
  | None => false
  end.

Definition literal (p : str) : bool :=
  forallb (fun c => negb (Re.is_meta c)) p.

Definition literal_items (p : str) : list Re.item :=
  map (fun c => Re.mkItem (Re.Lit c) false) p.

(** The first entry of the boost table whose phrase occurs in [x]. *)
Definition first_phrase (x : str) : option (str * float) :=
  find (fun entry => Str.contains (fst entry) x) specificity_boosts.

Definition boosted_confidence (x : str) : float :=
  py_min 0.9
         match first_phrase x with
         | Some (_, boost) => (0.7 + boost)%float
         | None => 0.7%float
         end.

(** Some pattern of the entry is found in [x]. *)
Definition entry_hit (x : str) (entry : Category * list str) : bool :=
  existsb (fun p => found p x) (snd entry).

Definition rule_results (table : list (Category * list str))
           (sentence : str) : list RawResult :=
  let x := Str.lower sentence in
  map (fun entry => {| r_type := fst entry;
                       r_confidence := boosted_confidence x;
                       r_method := rule_based |})
      (filter (entry_hit x) table).

(** [pre ++ [p]] is the part of a pattern list that a search for the
    first match visits: nothing in [pre] is found and [p] is. *)
Definition first_match (pre : list str) (p x : str) : Prop :=
  (forall q, In q pre -> Re.search q x = Ok false)
  /\ Re.search p x = Ok true.

(** Confidence bounds. *)
Definition in_range (c : float) : bool :=
  ((0 <=? c) && (c <=? 0.95))%float.

Definition nonneg_or_nan (x : spec_float) : bool :=
  match x with
  | S754_nan => true
  | S754_zero _ => true
  | S754_finite sign _ _ => negb sign
  | S754_infinity sign => negb sign
  end.

Definition nn (x : float) : Prop := nonneg_or_nan (Prim2SF x) = true.

(** The scores of a pipeline are never negative and never NaN. *)
Definition scores_nonneg (pipeline : Pipeline) : Prop :=
  forall x predictions,
    pipeline x = Ok predictions ->
    Forall (fun p => (0 <=? score p)%float = true) predictions.

(** A detector with the ML layer switched off. *)
Definition rules_only_detector : Detector :=
  __init__ false (Raise ExternalError).

(** What one pass of the loop of [detect_defects] works with and
    appends for [sentence]. *)
Definition ml_results_of (self : Detector) (sentence : str)
  : option RawResult :=
  if ml_available self
     && match classifier self with Some _ => true | None => false end
  then _ml_classify_sentence self sentence
  else None.

Definition findings_of (self : Detector) (sentence : str) : list Finding :=
  if Str.len (Str.strip sentence) <? 15 then []
  else _combine_results (ml_results_of self sentence)
                        (rule_results (defect_patterns self) sentence)
                        sentence.

(** The inputs of the spec's scenarios. *)
Definition scenario_A : str :=
  lit "The foundation shows visible cracks along the east wall.".

Definition scenario_A_unit : str :=
  lit "The foundation shows visible cracks along the east wall".

(** A boost phrase belongs to a category when it is one of the
    category's patterns. *)
Definition phrase_of_category (phrase : str) (c : Category) : Prop :=
  exists patterns, In (c, patterns) rule_patterns /\ In phrase patterns.

(** The lower-cased [sentence] contains one of [keywords]. *)
Definition mentions (keywords : list str) (sentence : str) : Prop :=
  exists keyword,
    In keyword keywords /\ substring keyword (Str.lower sentence).

(** A pipeline that labels every sentence NEGATIVE with score 0.9. *)
Definition always_negative : Pipeline :=
  fun _ => Ok [ {| label := lit "NEGATIVE"; score := 0.9%float |} ].

(** The ML layer stays silent on [x]: the pipeline raises, returns no
    prediction, or its first prediction is not labelled NEGATIVE. *)
Definition silent_on (pipeline : Pipeline) (x : str) : Prop :=
  match pipeline x with
  | Ok (first :: _) => Str.eqb (label first) (lit "NEGATIVE") = false
  | Ok [] => True
  | Raise _ => True
  end.

(** A pipeline whose every call raises. *)
Definition failing_pipeline : Pipeline := fun _ => Raise ExternalError.

Definition is_hybrid (f : Finding) : bool :=
  match f_detection_method f with
  | hybrid_ml_rule => true
  | _ => false
  end.

(** The characters an atom accepts, and the finitely many words that a
    list of items matches. *)
Definition atom_chars (a : Re.atom) : list ascii :=
  match a with
  | Re.Lit c => [c]
  | Re.Class members => members
  end.

Fixpoint words (r : list Re.item) : list str :=
  match r with
  | [] => [[]]
  | it :: r' =>
      flat_map (fun c => map (cons c) (words r'))
               (atom_chars (Re.it_atom it))
      ++ (if Re.it_optional it then words r' else [])
  end.

Definition pattern_words (p : str) : list str :=
  match Re.compile p with
  | Some r => words r
  | None => []
  end.

(** The words of all patterns of a category of the detector. *)
Definition category_words (c : Category) : list str :=
  flat_map (fun entry =>
              if Category_eqb (fst entry) c
              then flat_map pattern_words (snd entry)
              else [])
           rule_patterns.

Definition has_upper (w : str) : bool := existsb Str.isupper w.

(** The keywords that decide each category. *)
Definition keywords (c : Category) : list str :=
  match c with
  | Cracks =>
      [ lit "crack"; lit "fissure"; lit "split"; lit "fracture" ]
  | Damp =>
      [ lit "damp"; lit "moist"; lit "wet"; lit "humid";
        lit "water damage"; lit "condensation" ]
  | Corrosion =>
      [ lit "rust";
        lit "corrosi"; lit "corroso"; lit "corrosn"; lit "corros|";
        lit "corrosv"; lit "corrose";
        lit "oxida"; lit "oxidt"; lit "oxidi"; lit "oxido"; lit "oxidn";
        lit "oxid|"; lit "oxidz"; lit "oxide"; lit "oxidd";
        lit "corroded"; lit "deterioration"; lit "metal damage" ]
  | Mold =>
      [ lit "mold"; lit "mould"; lit "fungus"; lit "mildew"; lit "fungal";
        lit "spores"; lit "black spots" ]
  | Structural =>
      [ lit "structural"; lit "foundation"; lit "beam"; lit "support";
        lit "deflection"; lit "settlement"; lit "load-bearing";
        lit "load bearing" ]
  | Electrical =>
      [ lit "electrical"; lit "wiring"; lit "circuit"; lit "outlet";
        lit "panel"; lit "power"; lit "voltage" ]
  | Plumbing =>
      [ lit "plumbing"; lit "pipe"; lit "leak"; lit "drain";
        lit "water pressure"; lit "joint connection"; lit "blockage";
        lit "water system" ]
  end.

Definition nonempty (p : str) : bool :=
  match p with
  | [] => false
  | _ :: _ => true
  end.

Definition long_enough (p : str) : bool := 15 <? Str.len (Str.strip p).

(** Items with every character of the pattern lower-cased. *)
Definition lower_atom (a : Re.atom) : Re.atom :=
  match a with
  | Re.Lit c => Re.Lit (Str.lower_char c)
  | Re.Class members => Re.Class (map Str.lower_char members)
  end.

Definition lower_items (r : list Re.item) : list Re.item :=
  map (fun it => Re.mkItem (lower_atom (Re.it_atom it)) (Re.it_optional it)) r.

(** The truth value of a case-insensitive search for a pattern that
    compiles. *)
Definition found_ignorecase (p x : str) : bool :=
  match Re.compile p with
  | Some r => ReIgnoreCase.search_from r x
  | None => false
  end.

Definition fallback_hit (x : str) (entry : Category * list str) : bool :=
  existsb (fun p => found_ignorecase p x) (snd entry).

Definition fallback_finding (sentence : str) (entry : Category * list str)
  : AppFixed.FallbackFinding :=
  {| AppFixed.ff_type := fst entry;
     AppFixed.ff_sentence := sentence;
     AppFixed.ff_confidence := 0.7%float;
     AppFixed.ff_severity := Medium;
     AppFixed.ff_detection_method := AppFixed.rule_based_fallback |}.

(** What the fallback appends for one piece of the text. *)
Definition fallback_of (piece : str) : list AppFixed.FallbackFinding :=
  let sentence := Str.strip piece in
  if Str.len sentence <? 10 then []
  else map (fallback_finding sentence)
           (filter (fallback_hit sentence) AppFixed.defect_patterns).

(** The words, lower-cased, of the fallback patterns of a category. *)
Definition fallback_words (c : Category) : list str :=
  flat_map (fun entry =>
              if Category_eqb (fst entry) c
              then flat_map (fun p => match Re.compile p with
                                      | Some r => words (lower_items r)
                                      | None => []
                                      end)
                            (snd entry)
              else [])
           AppFixed.defect_patterns.

(** From [negb sign = true] to [sign = false], substituted. *)
Ltac positive_sign H :=
  apply negb_true_iff in H; subst.

(** * Facts about strings *)

Module StrFacts.

Lemma startswith_iff p : forall x,
  Str.startswith p x = true <-> exists post, x = p ++ post.
Proof.
  induction p as [ | a p IH]; intros x; simpl.
  - split; [intros _; now exists x | reflexivity].
  - destruct x as [ | b x].
    + split; [discriminate | intros [post H]; discriminate H].
    + rewrite andb_true_iff, IH, Ascii.eqb_eq. split.
      * intros [-> [post ->]]. now exists post.
      * intros [post H]. injection H as -> ->. split; [reflexivity | now exists post].
Qed.

Lemma contains_iff p x : Str.contains p x = true <-> substring p x.
Proof.
  unfold substring. induction x as [ | b x IH].
  - simpl. rewrite orb_false_r, startswith_iff. split.
    + intros [post H]. exists [], post. exact H.
    + intros [pre [post H]]. destruct pre; [ | discriminate H].
      now exists post.
  - cbn [Str.contains]. rewrite orb_true_iff, IH, startswith_iff. split.
    + intros [[post H] | [pre [post H]]].
      * exists [], post. exact H.
      * exists (b :: pre), post. simpl. now rewrite H.
    + intros [pre [post H]]. destruct pre as [ | c pre].
      * left. now exists post.
      * right. injection H as _ H. now exists pre, post.
Qed.

Lemma lstrip_length x : length (Str.lstrip x) <= length x.
Proof.
  induction x as [ | c x IH]; simpl; [lia | ].
  destruct (Str.isspace c); simpl; lia.
Qed.

Lemma strip_length x : Str.len (Str.strip x) <= Str.len x.
Proof.
  unfold Str.len, Str.strip, Str.rstrip.
  rewrite length_rev.
  etransitivity; [apply lstrip_length | ].
  rewrite length_rev. apply lstrip_length.
Qed.

Lemma lstrip_whitespace x : whitespace_only x -> Str.lstrip x = [].
Proof.
  induction 1 as [ | c x Hc _ IH]; simpl; [reflexivity | ].
  now rewrite Hc.
Qed.

Lemma strip_whitespace x : whitespace_only x -> Str.strip x = [].
Proof.
  intros H. unfold Str.strip. now rewrite (lstrip_whitespace _ H).
Qed.

(** What [lstrip] returns does not start with whitespace. *)
Lemma lstrip_head x c rest :
  Str.lstrip x = c :: rest -> Str.isspace c = false.
Proof.
  induction x as [ | d x IH]; simpl; [discriminate | ].
  destruct (Str.isspace d) eqn:E; [exact IH | ].
  intros H. injection H as -> _. exact E.
Qed.

Lemma lstrip_fixed x :
  match x with c :: _ => Str.isspace c = false | [] => True end ->
  Str.lstrip x = x.
Proof. destruct x as [ | c x]; simpl; [reflexivity | now intros ->]. Qed.

Lemma lstrip_idem x : Str.lstrip (Str.lstrip x) = Str.lstrip x.
Proof.
  apply lstrip_fixed. destruct (Str.lstrip x) eqn:E; [exact I | ].
  exact (lstrip_head _ _ _ E).
Qed.

Lemma lower_length x : length (Str.lower x) = length x.
Proof. apply length_map. Qed.

End StrFacts.

(** * Facts about the regular expressions *)

Module ReFacts.

Lemma search_compiled p x :
  compiles p = true -> Re.search p x = Ok (found p x).
Proof.
  unfold compiles, Re.search, found.
  destruct (Re.compile p); [reflexivity | discriminate].
Qed.

Lemma search_true p x :
  Re.search p x = Ok true <-> compiles p = true /\ found p x = true.
Proof.
  unfold compiles, Re.search, found.
  destruct (Re.compile p); split; try discriminate.
  - intros H. injection H as ->. now split.
  - intros [_ ->]. reflexivity.
  - intros [H _]. discriminate H.
Qed.

Lemma search_false p x :
  Re.search p x = Ok false <-> compiles p = true /\ found p x = false.
Proof.
  unfold compiles, Re.search, found.
  destruct (Re.compile p); split; try discriminate.
  - intros H. injection H as ->. now split.
  - intros [_ ->]. reflexivity.
  - intros [H _]. discriminate H.
Qed.

(** A character that is not a metacharacter is neither [[] nor [?]. *)
Lemma not_meta c :
  Re.is_meta c = false ->
  Ascii.eqb c "[" = false /\ Ascii.eqb c "?" = false.
Proof.
  intros H. split.
  - destruct (Ascii.eqb c "[") eqn:E; [ | reflexivity].
    apply Ascii.eqb_eq in E. subst c. vm_compute in H. discriminate H.
  - destruct (Ascii.eqb c "?") eqn:E; [ | reflexivity].
    apply Ascii.eqb_eq in E. subst c. vm_compute in H. discriminate H.
Qed.

Lemma compile_from_literal p : forall acc,
  literal p = true ->
  Re.compile_from None acc p = Some (rev acc ++ literal_items p).
Proof.
  induction p as [ | c p IH]; intros acc H.
  - simpl. now rewrite app_nil_r.
  - cbn [literal forallb] in H. apply andb_true_iff in H as [Hc Hp].
    apply negb_true_iff in Hc.
    destruct (not_meta _ Hc) as [Hopen Hopt].
    cbn [Re.compile_from]. rewrite Hopen, Hopt, Hc.
    rewrite (IH _ Hp). cbn [rev literal_items map].
    now rewrite <- app_assoc.
Qed.

Lemma compile_literal p :
  literal p = true -> Re.compile p = Some (literal_items p).
Proof. intros H. unfold Re.compile. now rewrite (compile_from_literal _ [] H). Qed.

Lemma match_here_literal p : forall x,
  Re.match_here (literal_items p) x = Str.startswith p x.
Proof.
  induction p as [ | a p IH]; intros x; [reflexivity | ].
  destruct x as [ | b x]; [reflexivity | ].
  cbn [literal_items map Re.match_here Re.it_atom Re.it_optional
       Re.atom_matches Str.startswith].
  fold (literal_items p). now rewrite IH, orb_false_r.
Qed.

Lemma search_from_literal p x :
  Re.search_from (literal_items p) x = Str.contains p x.
Proof.
  induction x as [ | b x IH]; cbn [Re.search_from Str.contains];
    rewrite match_here_literal; [reflexivity | now rewrite IH].
Qed.

(** Searching for a pattern without metacharacters is the substring
    test. *)
Lemma search_literal p x :
  literal p = true -> Re.search p x = Ok (Str.contains p x).
Proof.
  intros H. unfold Re.search. rewrite (compile_literal _ H).
  now rewrite search_from_literal.
Qed.

End ReFacts.

(** * Facts about the rule-based classifier *)

Module RuleFacts.

Lemma boosts_literal :
  forallb (fun entry => literal (fst entry)) specificity_boosts = true.
Proof. vm_compute. reflexivity. Qed.

Lemma rule_patterns_compile : table_compiles rule_patterns = true.
Proof. vm_compute. reflexivity. Qed.

Lemma rule_patterns_keys : NoDup (map fst rule_patterns).
Proof.
  cbn [rule_patterns map fst].
  repeat (constructor; [cbn [In]; intuition discriminate | ]).
  constructor.
Qed.

Lemma boost_loop_find boosts x base :
  forallb (fun entry => literal (fst entry)) boosts = true ->
  boost_loop boosts x base =
  Ok match find (fun entry => Str.contains (fst entry) x) boosts with
     | Some (_, boost) => (base + boost)%float
     | None => base
     end.
Proof.
  induction boosts as [ | [phrase boost] boosts IH]; intros H;
    [reflexivity | ].
  cbn [forallb fst] in H. apply andb_true_iff in H as [Hp Hrest].
  cbn [boost_loop find fst]. rewrite (ReFacts.search_literal _ _ Hp).
  cbn [bind]. destruct (Str.contains phrase x); [reflexivity | ].
  exact (IH Hrest).
Qed.

Lemma calculate_rule_confidence_eq pattern x :
  _calculate_rule_confidence pattern x = Ok (boosted_confidence x).
Proof.
  unfold _calculate_rule_confidence.
  rewrite (boost_loop_find _ _ _ boosts_literal). reflexivity.
Qed.

Lemma classify_patterns_eq c patterns x :
  forallb compiles patterns = true ->
  classify_patterns c patterns x =
  Ok (if existsb (fun p => found p x) patterns
      then Some {| r_type := c;
                   r_confidence := boosted_confidence x;
                   r_method := rule_based |}
      else None).
Proof.
  induction patterns as [ | p patterns IH]; intros H; [reflexivity | ].
  cbn [forallb] in H. apply andb_true_iff in H as [Hp Hrest].
  cbn [classify_patterns existsb].
  rewrite (ReFacts.search_compiled _ _ Hp). cbn [bind].
  destruct (found p x); cbn [orb].
  - now rewrite calculate_rule_confidence_eq.
  - exact (IH Hrest).
Qed.

Lemma classify_items_eq table x : forall results,
  table_compiles table = true ->
  classify_items table x results =
  Ok (results ++
      map (fun entry => {| r_type := fst entry;
                           r_confidence := boosted_confidence x;
                           r_method := rule_based |})
          (filter (entry_hit x) table)).
Proof.
  induction table as [ | [c patterns] table IH]; intros results H.
  - simpl. now rewrite app_nil_r.
  - cbn [table_compiles forallb snd] in H.
    apply andb_true_iff in H as [Hp Hrest].
    cbn [classify_items filter]. rewrite (classify_patterns_eq _ _ _ Hp).
    cbn [bind]. unfold entry_hit at 1. cbn [snd].
    destruct (existsb _ patterns).
    + rewrite (IH _ Hrest). cbn [map fst]. now rewrite <- app_assoc.
    + exact (IH _ Hrest).
Qed.

Lemma rule_based_classify_eq self sentence :
  table_compiles (defect_patterns self) = true ->
  _rule_based_classify self sentence =
  Ok (rule_results (defect_patterns self) sentence).
Proof.
  intros H. unfold _rule_based_classify.
  now rewrite (classify_items_eq _ _ _ H).
Qed.

(** The inner loop stops at the first pattern found: what follows it
    in the list is not looked at. *)
Lemma classify_patterns_first c pre p post x :
  first_match pre p x ->
  classify_patterns c (pre ++ p :: post) x =
  (confidence <- _calculate_rule_confidence p x ;;
   Ok (Some {| r_type := c;
               r_confidence := confidence;
               r_method := rule_based |})).
Proof.
  intros [Hpre Hp]. induction pre as [ | q pre IH].
  - cbn [app classify_patterns]. rewrite Hp. reflexivity.
  - cbn [app classify_patterns].
    rewrite (Hpre q (or_introl eq_refl)). cbn [bind].
    apply IH. intros q' Hq'. apply Hpre. now right.
Qed.

Lemma rule_results_types table sentence :
  map r_type (rule_results table sentence) =
  map fst (filter (entry_hit (Str.lower sentence)) table).
Proof. unfold rule_results. rewrite map_map. reflexivity. Qed.

Lemma NoDup_keys_filter (f : Category * list str -> bool) table :
  NoDup (map fst table) -> NoDup (map fst (filter f table)).
Proof.
  induction table as [ | entry table IH]; intros H; [constructor | ].
  cbn [map] in H. inversion H as [ | k ks Hnotin Hrest]; subst.
  cbn [filter]. destruct (f entry); [ | exact (IH Hrest)].
  cbn [map]. constructor; [ | exact (IH Hrest)].
  intros Hin. apply Hnotin.
  apply in_map_iff in Hin as [e [He Hin]].
  apply filter_In in Hin as [Hin _].
  apply in_map_iff. now exists e.
Qed.

Lemma hit_first_match patterns x :
  forallb compiles patterns = true ->
  existsb (fun p => found p x) patterns = true ->
  exists pre p post,
    patterns = pre ++ p :: post /\ first_match pre p x.
Proof.
  induction patterns as [ | q patterns IH]; intros Hc Hhit;
    [discriminate | ].
  cbn [forallb] in Hc. apply andb_true_iff in Hc as [Hq Hrest].
  cbn [existsb] in Hhit. destruct (found q x) eqn:Eq.
  - exists [], q, patterns. split; [reflexivity | split].
    + intros q' [].
    + now apply ReFacts.search_true.
  - destruct (IH Hrest Hhit) as (pre & p & post & -> & Hpre & Hp).
    exists (q :: pre), p, post. split; [reflexivity | split].
    + intros q' [<- | Hin]; [now apply ReFacts.search_false | now apply Hpre].
    + exact Hp.
Qed.

Lemma first_match_hit pre p post x :
  first_match pre p x ->
  existsb (fun q => found q x) (pre ++ p :: post) = true.
Proof.
  intros [_ Hp]. apply existsb_exists. exists p. split.
  - apply in_or_app. right. now left.
  - now apply ReFacts.search_true in Hp.
Qed.

(** What [find] returns is the first element that passes the test. *)
Lemma find_first {A : Type} (f : A -> bool) (l : list A) (a : A) :
  find f l = Some a ->
  exists before after,
    l = before ++ a :: after
    /\ f a = true
    /\ forall e, In e before -> f e = false.
Proof.
  induction l as [ | b l IH]; [discriminate | ].
  cbn [find]. destruct (f b) eqn:Eb.
  - intros H. injection H as ->. exists [], l.
    split; [reflexivity | split; [exact Eb | intros e []]].
  - intros H. destruct (IH H) as (before & after & -> & Ha & Hbefore).
    exists (b :: before), after.
    split; [reflexivity | split; [exact Ha | ]].
    intros e [<- | Hin]; [exact Eb | now apply Hbefore].
Qed.

End RuleFacts.


(** * Facts about binary64 arithmetic *)

Module FloatFacts.

Lemma round_aux_sign mx ex lx :
  nonneg_or_nan (binary_round_aux prec emax false mx ex lx) = true.
Proof.
  unfold binary_round_aux.
  destruct (shr_fexp prec emax mx ex lx) as [mrs1 e1].
  destruct (shr_fexp prec emax _ e1 loc_Exact) as [mrs2 e2].
  destruct (shr_m mrs2); [reflexivity | | reflexivity].
  destruct (Z.leb e2 (Z.sub emax prec)); reflexivity.
Qed.

Lemma mul_sign x y :
  nonneg_or_nan x = true -> nonneg_or_nan y = true ->
  nonneg_or_nan (SF64mul x y) = true.
Proof.
  destruct x as [sx | sx | | sx mx ex], y as [sy | sy | | sy my ey];
    simpl; intros Hx Hy; try reflexivity;
    try positive_sign Hx; try positive_sign Hy; try reflexivity.
  apply round_aux_sign.
Qed.

Lemma add_sign x y :
  nonneg_or_nan x = true -> nonneg_or_nan y = true ->
  nonneg_or_nan (SF64add x y) = true.
Proof.
  destruct x as [sx | sx | | sx mx ex], y as [sy | sy | | sy my ey];
    simpl; intros Hx Hy; try reflexivity;
    try positive_sign Hx; try positive_sign Hy;
    try reflexivity; try (destruct sx, sy; reflexivity).
  unfold SF64add, SFadd, cond_Zopp, binary_normalize, binary_round.
  cbn [Z.add].
  destruct (shl_align _ _ _) as [mz ez].
  apply round_aux_sign.
Qed.

Lemma div_sign x my ey :
  nonneg_or_nan x = true ->
  nonneg_or_nan (SF64div x (S754_finite false my ey)) = true.
Proof.
  destruct x as [sx | sx | | sx mx ex]; simpl; intros Hx; try reflexivity;
    try positive_sign Hx; try reflexivity.
  unfold SF64div, SFdiv.
  destruct (SFdiv_core_binary _ _ _ _ _ _) as [[mz ez] lz].
  apply round_aux_sign.
Qed.

Lemma leb_zero x :
  nonneg_or_nan x = true -> x <> S754_nan ->
  SFleb (S754_zero false) x = true.
Proof.
  destruct x as [sx | sx | | sx mx ex]; simpl; intros Hx Hn;
    try congruence; try reflexivity;
    positive_sign Hx; reflexivity.
Qed.

Lemma ltb_not_nan x y : SFltb x y = true -> x <> S754_nan.
Proof. intros H ->. discriminate H. Qed.

Lemma ltb_leb x y : SFltb x y = true -> SFleb x y = true.
Proof.
  unfold SFltb, SFleb. destruct (SFcompare x y) as [[ | | ] | ]; congruence.
Qed.

Lemma nn_of_leb x : (0 <=? x)%float = true -> nn x.
Proof.
  rewrite leb_spec. unfold nn.
  destruct (Prim2SF x) as [sx | sx | | sx mx ex]; try reflexivity.
  - destruct sx; [discriminate | reflexivity].
  - destruct sx; [discriminate | reflexivity].
Qed.

Lemma nn_of_in_range x : in_range x = true -> nn x.
Proof.
  unfold in_range. intros H. apply andb_true_iff in H as [H _].
  now apply nn_of_leb.
Qed.

Lemma nn_mul x y : nn x -> nn y -> nn (x * y)%float.
Proof. unfold nn. rewrite mul_spec. apply mul_sign. Qed.

Lemma nn_add x y : nn x -> nn y -> nn (x + y)%float.
Proof. unfold nn. rewrite add_spec. apply add_sign. Qed.

Lemma nn_half x : nn x -> nn (x / 2)%float.
Proof. unfold nn. rewrite div_spec. apply div_sign. Qed.

(** [min(0.95, y)] lies in [0, 0.95] as soon as [y] is not negative;
    a NaN [y] is not below 0.95, so the cap is returned for it. *)
Lemma py_min_in_range y : nn y -> in_range (py_min 0.95 y) = true.
Proof.
  intros Hy. unfold py_min.
  destruct (y <? 0.95)%float eqn:E; [ | reflexivity].
  unfold in_range. rewrite ltb_spec in E. rewrite !leb_spec.
  rewrite (ltb_leb _ _ E), andb_true_r.
  apply leb_zero; [exact Hy | exact (ltb_not_nan _ _ E)].
Qed.

(** Whatever [y] is, [min(0.95, y)] is at most 0.95. *)
Lemma py_min_upper y : (py_min 0.95 y <=? 0.95)%float = true.
Proof.
  unfold py_min. destruct (y <? 0.95)%float eqn:E; [ | reflexivity].
  rewrite ltb_spec in E. rewrite leb_spec. exact (ltb_leb _ _ E).
Qed.

End FloatFacts.

(** * Facts about scoring and merging *)

Module MergeFacts.

Lemma first_phrase_entry x entry :
  first_phrase x = Some entry ->
  In entry specificity_boosts /\ Str.contains (fst entry) x = true.
Proof. unfold first_phrase. apply find_some. Qed.

(** The rule confidence takes one of four values. *)
Lemma boosted_values x :
  In (boosted_confidence x)
     [ py_min 0.9 0.7; py_min 0.9 (0.7 + 0.2); py_min 0.9 (0.7 + 0.25);
       py_min 0.9 (0.7 + 0.15) ]%float.
Proof.
  unfold boosted_confidence.
  destruct (first_phrase x) as [[phrase boost] | ] eqn:E.
  - apply first_phrase_entry in E as [Hin _].
    cbn [specificity_boosts In] in Hin.
    destruct Hin as [H | [H | [H | [H | [H | []]]]]];
      injection H as _ <-; cbn [In]; tauto.
  - cbn [In]. tauto.
Qed.

Lemma boosted_in_range x : in_range (boosted_confidence x) = true.
Proof.
  destruct (boosted_values x) as [<- | [<- | [<- | [<- | []]]]];
    vm_compute; reflexivity.
Qed.

Lemma rule_results_in_range table sentence :
  Forall (fun r => in_range (r_confidence r) = true)
         (rule_results table sentence).
Proof.
  unfold rule_results. apply Forall_map, Forall_forall.
  intros entry _. apply boosted_in_range.
Qed.

Lemma hybrid_or_rule_in_range ml sentence r :
  in_range (r_confidence ml) = true ->
  in_range (r_confidence r) = true ->
  in_range (f_confidence (hybrid_or_rule ml sentence r)) = true.
Proof.
  intros Hml Hr. unfold hybrid_or_rule.
  destruct (Category_eqb (r_type r) (r_type ml)); cbn [f_confidence];
    [ | exact Hr].
  apply FloatFacts.py_min_in_range.
  apply FloatFacts.nn_add; [ | reflexivity].
  apply FloatFacts.nn_half.
  apply FloatFacts.nn_add; now apply FloatFacts.nn_of_in_range.
Qed.

Lemma combine_in_range ml_results rule_results sentence :
  (forall ml, ml_results = Some ml -> in_range (r_confidence ml) = true) ->
  Forall (fun r => in_range (r_confidence r) = true) rule_results ->
  Forall (fun f => in_range (f_confidence f) = true)
         (_combine_results ml_results rule_results sentence).
Proof.
  intros Hml Hrules. unfold _combine_results.
  destruct ml_results as [ml | ], rule_results as [ | r rest].
  - constructor; [ | constructor]. cbn [f_confidence]. now apply Hml.
  - apply Forall_map. revert Hrules. apply Forall_impl. intros r0 Hr0.
    apply hybrid_or_rule_in_range; [now apply Hml | exact Hr0].
  - constructor.
  - apply Forall_map. revert Hrules. apply Forall_impl. intros r0 Hr0.
    exact Hr0.
Qed.

Lemma ml_body_in_range self pipeline sentence r :
  scores_nonneg pipeline ->
  ml_body self pipeline sentence = Ok (Some r) ->
  in_range (r_confidence r) = true.
Proof.
  intros Hscores. unfold ml_body.
  destruct (pipeline sentence) as [predictions | e] eqn:Ecall;
    [ | discriminate].
  specialize (Hscores _ _ Ecall).
  destruct predictions as [ | first others]; [discriminate | ].
  cbn [bind]. inversion Hscores as [ | p ps Hfirst _]; subst.
  destruct (Str.eqb (label first) (lit "NEGATIVE")); [ | discriminate].
  destruct (_get_primary_defect_type self sentence) as [[t | ] | e];
    cbn [bind]; try discriminate.
  intros H. injection H as <-. cbn [r_confidence].
  apply FloatFacts.py_min_in_range.
  apply FloatFacts.nn_mul; [now apply FloatFacts.nn_of_leb | reflexivity].
Qed.

Lemma ml_classify_in_range self sentence r :
  (forall pipeline, classifier self = Some pipeline -> scores_nonneg pipeline) ->
  _ml_classify_sentence self sentence = Some r ->
  in_range (r_confidence r) = true.
Proof.
  intros Hscores. unfold _ml_classify_sentence.
  destruct (classifier self) as [pipeline | ]; [ | discriminate].
  specialize (Hscores pipeline eq_refl).
  destruct (ml_body self pipeline sentence) as [[r0 | ] | e] eqn:E;
    cbn [try_except]; try discriminate.
  intros H. injection H as <-. exact (ml_body_in_range _ _ _ _ Hscores E).
Qed.

Lemma keyword_loop_iff keywords x :
  keyword_loop keywords x = true <->
  exists keyword, In keyword keywords /\ substring keyword x.
Proof.
  induction keywords as [ | k keywords IH]; cbn [keyword_loop].
  - split; [discriminate | intros [k [[] _]]].
  - destruct (Str.contains k x) eqn:E.
    + split; [intros _ | reflexivity].
      exists k. split; [now left | now apply StrFacts.contains_iff].
    + rewrite IH. split.
      * intros [k' [Hin Hsub]]. exists k'. split; [now right | exact Hsub].
      * intros [k' [[<- | Hin] Hsub]]; [ | now exists k'].
        apply StrFacts.contains_iff in Hsub. congruence.
Qed.

Lemma severity_cases sentence :
  (mentions high_severity_keywords sentence
   /\ _determine_severity sentence = High)
  \/ (~ mentions high_severity_keywords sentence
      /\ mentions medium_severity_keywords sentence
      /\ _determine_severity sentence = Medium)
  \/ (~ mentions high_severity_keywords sentence
      /\ ~ mentions medium_severity_keywords sentence
      /\ _determine_severity sentence = Low).
Proof.
  unfold _determine_severity, mentions.
  destruct (keyword_loop high_severity_keywords _) eqn:Eh.
  - left. split; [now apply keyword_loop_iff | reflexivity].
  - right.
    assert (Hno : ~ exists keyword,
               In keyword high_severity_keywords
               /\ substring keyword (Str.lower sentence)).
    { intros H. apply keyword_loop_iff in H. congruence. }
    destruct (keyword_loop medium_severity_keywords _) eqn:Em.
    + left. repeat split; [exact Hno | now apply keyword_loop_iff].
    + right. repeat split; [exact Hno | ].
      intros H. apply keyword_loop_iff in H. congruence.
Qed.

Lemma combine_with_ml ml r rest sentence :
  _combine_results (Some ml) (r :: rest) sentence
  = map (hybrid_or_rule ml sentence) (r :: rest).
Proof. reflexivity. Qed.

End MergeFacts.

(** * Facts about segmentation and the document loop *)

Module PipelineFacts.

Lemma lstrip_suffix x : exists spaces, x = spaces ++ Str.lstrip x.
Proof.
  induction x as [ | c x [spaces IH]]; [now exists [] | ].
  cbn [Str.lstrip]. destruct (Str.isspace c).
  - exists (c :: spaces). cbn [app]. now rewrite <- IH.
  - now exists [].
Qed.

Lemma rstrip_prefix x : exists spaces, x = Str.rstrip x ++ spaces.
Proof.
  destruct (lstrip_suffix (rev x)) as [spaces H].
  exists (rev spaces). unfold Str.rstrip.
  rewrite <- rev_app_distr, <- H. now rewrite rev_involutive.
Qed.

Lemma strip_idem x : Str.strip (Str.strip x) = Str.strip x.
Proof.
  unfold Str.strip.
  assert (Hfix : Str.lstrip (Str.rstrip (Str.lstrip x))
                 = Str.rstrip (Str.lstrip x)).
  { apply StrFacts.lstrip_fixed.
    destruct (rstrip_prefix (Str.lstrip x)) as [spaces H].
    destruct (Str.rstrip (Str.lstrip x)) as [ | c rest]; [exact I | ].
    exact (StrFacts.lstrip_head x c (rest ++ spaces) H). }
  rewrite Hfix. unfold Str.rstrip at 1 2.
  now rewrite rev_involutive, StrFacts.lstrip_idem.
Qed.

Lemma split_units text u :
  In u (_split_into_sentences text) <->
  exists piece, In piece (Re.split_terminal text)
                /\ 15 < Str.len (Str.strip piece) /\ u = Str.strip piece.
Proof.
  unfold _split_into_sentences. rewrite in_map_iff. split.
  - intros [piece [Hu Hin]]. apply filter_In in Hin as [Hin Hlen].
    apply Nat.ltb_lt in Hlen. now exists piece.
  - intros [piece [Hin [Hlen Hu]]]. exists piece. split; [now symmetry | ].
    apply filter_In. split; [exact Hin | now apply Nat.ltb_lt].
Qed.

Lemma split_terminal_clean text :
  Forall (fun piece => forallb (fun c => negb (Re.is_terminal c)) piece = true)
         (Re.split_terminal text).
Proof.
  induction text as [ | c text IH]; [repeat constructor | ].
  cbn [Re.split_terminal]. destruct (Re.is_terminal c) eqn:Ec.
  - destruct (match text with d :: _ => Re.is_terminal d | [] => false end);
      [exact IH | constructor; [reflexivity | exact IH]].
  - destruct (Re.split_terminal text) as [ | piece rest].
    + repeat constructor. cbn [forallb]. now rewrite Ec.
    + inversion IH as [ | p ps Hp Hrest]; subst.
      constructor; [ | exact Hrest]. cbn [forallb]. now rewrite Ec, Hp.
Qed.

Lemma split_terminal_concat text :
  concat (Re.split_terminal text)
  = filter (fun c => negb (Re.is_terminal c)) text.
Proof.
  induction text as [ | c text IH]; [reflexivity | ].
  cbn [Re.split_terminal filter]. destruct (Re.is_terminal c); cbn [negb].
  - destruct (match text with d :: _ => Re.is_terminal d | [] => false end);
      exact IH.
  - destruct (Re.split_terminal text) as [ | piece rest]; cbn [concat] in *.
    + now rewrite <- IH.
    + cbn [app]. now rewrite IH.
Qed.

(** A run of punctuation is one delimiter: between the first and the
    last piece no piece is empty. *)
Lemma split_terminal_runs text :
  exists first rest,
    Re.split_terminal text = first :: rest
    /\ (first = [] ->
        match text with c :: _ => Re.is_terminal c = true | [] => True end)
    /\ Forall (fun piece => piece <> []) (removelast rest).
Proof.
  induction text as [ | c text (first & rest & Hsplit & Hfirst & Hrest)].
  - exists [], []. split; [reflexivity | split; [trivial | constructor]].
  - cbn [Re.split_terminal]. rewrite Hsplit.
    destruct (Re.is_terminal c) eqn:Ec.
    + destruct text as [ | d text'].
      * cbn in Hsplit. injection Hsplit as <- <-.
        exists [], [[]]. split; [reflexivity | split; [trivial | constructor]].
      * destruct (Re.is_terminal d) eqn:Ed.
        -- exists first, rest.
           split; [reflexivity | split; [trivial | exact Hrest]].
        -- exists [], (first :: rest).
           split; [reflexivity | split; [trivial | ]].
           destruct rest as [ | second rest']; [constructor | ].
           change (Forall (fun piece : str => piece <> [])
                          (first :: removelast (second :: rest'))).
           constructor; [ | exact Hrest].
           intros ->. specialize (Hfirst eq_refl). cbn in Hfirst. congruence.
    + exists (c :: first), rest.
      split; [reflexivity | split; [discriminate | exact Hrest]].
Qed.

Lemma init_patterns flag pipeline :
  defect_patterns (__init__ flag pipeline) = rule_patterns.
Proof. reflexivity. Qed.

Lemma init_compiles flag pipeline :
  table_compiles (defect_patterns (__init__ flag pipeline)) = true.
Proof. rewrite init_patterns. apply RuleFacts.rule_patterns_compile. Qed.

Lemma detect_loop_eq self sentences : forall defects,
  table_compiles (defect_patterns self) = true ->
  detect_loop self sentences defects =
  Ok (defects ++ flat_map (findings_of self) sentences).
Proof.
  induction sentences as [ | sentence rest IH]; intros defects H.
  - simpl. now rewrite app_nil_r.
  - cbn [detect_loop flat_map]. unfold findings_of at 1.
    destruct (Str.len (Str.strip sentence) <? 15).
    + exact (IH defects H).
    + rewrite (RuleFacts.rule_based_classify_eq _ _ H). cbn [bind].
      rewrite (IH _ H). fold (ml_results_of self sentence).
      now rewrite <- app_assoc.
Qed.

Lemma detect_defects_guard self text :
  Str.len (Str.strip text) < 20 -> detect_defects self text = Ok [].
Proof.
  intros H. unfold detect_defects. apply Nat.ltb_lt in H. rewrite H.
  now rewrite orb_true_r.
Qed.

Lemma detect_defects_eq self text :
  table_compiles (defect_patterns self) = true ->
  detect_defects self text =
  Ok (if Str.len (Str.strip text) <? 20 then []
      else flat_map (findings_of self) (_split_into_sentences text)).
Proof.
  intros H. unfold detect_defects.
  destruct (Str.len (Str.strip text) <? 20) eqn:E.
  - now rewrite orb_true_r.
  - rewrite orb_false_r. destruct text as [ | c text].
    + discriminate E.
    + now rewrite (detect_loop_eq _ _ _ H).
Qed.

Lemma any_pattern_eq patterns x :
  forallb compiles patterns = true ->
  any_pattern patterns x = Ok (existsb (fun p => found p x) patterns).
Proof.
  induction patterns as [ | p patterns IH]; intros H; [reflexivity | ].
  cbn [forallb] in H. apply andb_true_iff in H as [Hp Hrest].
  cbn [any_pattern existsb]. rewrite (ReFacts.search_compiled _ _ Hp).
  cbn [bind]. destruct (found p x); [reflexivity | exact (IH Hrest)].
Qed.

Lemma primary_items_eq table x :
  table_compiles table = true ->
  primary_items table x
  = Ok (option_map fst (find (entry_hit x) table)).
Proof.
  induction table as [ | [c patterns] table IH]; intros H; [reflexivity | ].
  cbn [table_compiles forallb snd] in H.
  apply andb_true_iff in H as [Hp Hrest].
  cbn [primary_items find]. rewrite (any_pattern_eq _ _ Hp). cbn [bind].
  unfold entry_hit at 1. cbn [snd].
  destruct (existsb _ patterns); [reflexivity | exact (IH Hrest)].
Qed.

Lemma find_filter_head {A : Type} (f : A -> bool) (l : list A) :
  find f l = hd_error (filter f l).
Proof.
  induction l as [ | a l IH]; [reflexivity | ].
  cbn [find filter]. destruct (f a); [reflexivity | exact IH].
Qed.

(** Inside [detect_defects] the ML result never disagrees with all the
    rule-based matches: its category is the one of the first match. *)
Lemma ml_category_is_first_rule_category self sentence ml :
  table_compiles (defect_patterns self) = true ->
  _ml_classify_sentence self sentence = Some ml ->
  exists r rest,
    rule_results (defect_patterns self) sentence = r :: rest
    /\ r_type r = r_type ml.
Proof.
  intros Htable. unfold _ml_classify_sentence.
  destruct (classifier self) as [pipeline | ]; [ | discriminate].
  unfold ml_body.
  destruct (pipeline sentence) as [[ | first others] | e];
    cbn [bind try_except]; try discriminate.
  destruct (Str.eqb (label first) (lit "NEGATIVE"));
    cbn [try_except]; [ | discriminate].
  unfold _get_primary_defect_type.
  rewrite (primary_items_eq _ _ Htable), find_filter_head. cbn [bind].
  unfold rule_results.
  destruct (filter _ (defect_patterns self)) as [ | entry entries];
    cbn [hd_error option_map try_except]; [discriminate | ].
  intros H. injection H as <-. cbn [map r_type].
  eexists. eexists. split; reflexivity.
Qed.

End PipelineFacts.

(** * The claims *)

(** C1. [detect_defects] never raises.  For every detector that
    [__init__] builds (ML libraries present or absent, classifier loaded
    or failed to load, and whatever the pipeline later returns or
    raises) and for every input text, [detect_defects] returns a list of
    findings.  The list is empty for the empty text, for a text of
    whitespace only, and for a text that segmentation leaves without
    units. *)
Theorem detect_defects_never_raises :
  forall (ML_AVAILABLE : bool) (pipeline : py Pipeline) (text : str),
  exists findings,
    detect_defects (__init__ ML_AVAILABLE pipeline) text = Ok findings
    /\ (text = [] -> findings = [])
    /\ (whitespace_only text -> findings = [])
    /\ (_split_into_sentences text = [] -> findings = []).
Proof.
  intros flag pipeline text.
  rewrite (PipelineFacts.detect_defects_eq _ _
             (PipelineFacts.init_compiles flag pipeline)).
  eexists. split; [reflexivity | ].
  assert (Hblank : whitespace_only text ->
                   (if Str.len (Str.strip text) <? 20 then []
                    else flat_map (findings_of (__init__ flag pipeline))
                                  (_split_into_sentences text)) = []).
  { intros H. now rewrite (StrFacts.strip_whitespace _ H). }
  split; [ | split].
  - intros ->. apply Hblank. constructor.
  - exact Hblank.
  - intros ->. now destruct (Str.len (Str.strip text) <? 20).
Qed.

(** C8. The segmenter cuts the text at runs of sentence-terminal
    punctuation (no piece holds a terminal character, the pieces joined
    are the text without them, and no piece between the first and the
    last is empty), trims each piece, and keeps a piece only when its
    trimmed length exceeds 15, so every unit below a threshold of 10 to
    15 characters is excluded.  When every piece has a trimmed length of
    at most 15, segmentation yields no unit and [detect_defects] yields
    no finding. *)
Theorem segmenter_excludes_short_units :
  forall text : str,
    (forall u, In u (_split_into_sentences text) <->
               exists piece, In piece (Re.split_terminal text)
                             /\ 15 < Str.len (Str.strip piece)
                             /\ u = Str.strip piece)
    /\ Forall (fun u => Str.strip u = u /\ 15 < Str.len u)
              (_split_into_sentences text)
    /\ Forall (fun piece =>
                 forallb (fun c => negb (Re.is_terminal c)) piece = true)
              (Re.split_terminal text)
    /\ concat (Re.split_terminal text)
       = filter (fun c => negb (Re.is_terminal c)) text
    /\ (exists first rest,
          Re.split_terminal text = first :: rest
          /\ Forall (fun piece => piece <> []) (removelast rest))
    /\ (Forall (fun piece => Str.len (Str.strip piece) <= 15)
               (Re.split_terminal text) ->
        _split_into_sentences text = []
        /\ forall ML_AVAILABLE pipeline,
             detect_defects (__init__ ML_AVAILABLE pipeline) text = Ok []).
Proof.
  intros text.
  split; [intros u; apply PipelineFacts.split_units | ].
  split.
  { apply Forall_forall. intros u Hu.
    apply PipelineFacts.split_units in Hu as [piece [_ [Hlen ->]]].
    split; [apply PipelineFacts.strip_idem | exact Hlen]. }
  split; [apply PipelineFacts.split_terminal_clean | ].
  split; [apply PipelineFacts.split_terminal_concat | ].
  split.
  { destruct (PipelineFacts.split_terminal_runs text)
      as (first & rest & Hsplit & _ & Hrest).
    now exists first, rest. }
  intros Hshort.
  assert (Hnone : _split_into_sentences text = []).
  { destruct (_split_into_sentences text) as [ | u units] eqn:E;
      [reflexivity | exfalso].
    assert (Hu : In u (_split_into_sentences text))
      by (rewrite E; now left).
    apply PipelineFacts.split_units in Hu as [piece [Hin [Hlen _]]].
    rewrite Forall_forall in Hshort. specialize (Hshort piece Hin). lia. }
  split; [exact Hnone | ].
  intros flag pipeline.
  rewrite (PipelineFacts.detect_defects_eq _ _
             (PipelineFacts.init_compiles flag pipeline)).
  rewrite Hnone. now destruct (Str.len (Str.strip text) <? 20).
Qed.

(** A document of page furniture only, as in the spec's scenario C. *)
Lemma segmenter_excludes_short_units_witness :
  _split_into_sentences (lit "Page 4. 123! Roof ok?") = []
  /\ forall ML_AVAILABLE pipeline,
       detect_defects (__init__ ML_AVAILABLE pipeline)
                      (lit "Page 4. 123! Roof ok?") = Ok [].
Proof.
  apply (proj2 (proj2 (proj2 (proj2 (proj2
           (segmenter_excludes_short_units (lit "Page 4. 123! Roof ok?"))))))).
  vm_compute. repeat constructor.
Defined.

(** C9, as the code has it.  For the input of scenario A with the ML
    layer disabled, [detect_defects] returns two findings for the one
    sentence, in taxonomy order: Cracks (the pattern [crack[s]?]) and
    Structural (the pattern [foundation]); both have severity Low,
    detection method rule_based and confidence 0.85. *)
Theorem scenario_A_two_findings :
  forall pipeline : py Pipeline,
    detect_defects (__init__ false pipeline) scenario_A =
    Ok [ {| f_type := Cracks;
            f_sentence := scenario_A_unit;
            f_confidence := 0.85%float;
            f_severity := Low;
            f_detection_method := rule_based |};
         {| f_type := Structural;
            f_sentence := scenario_A_unit;
            f_confidence := 0.85%float;
            f_severity := Low;
            f_detection_method := rule_based |} ].
Proof. intros pipeline. vm_compute. reflexivity. Qed.

(** C9 as stated fails: for the input of scenario A with the ML layer
    disabled the result is not a list of exactly one finding. *)
Lemma scenario_A_single_finding_fails :
  ~ exists finding,
      detect_defects rules_only_detector scenario_A = Ok [finding]
      /\ f_type finding = Cracks
      /\ f_severity finding = Low
      /\ f_detection_method finding = rule_based.
Proof.
  intros [finding [H _]]. vm_compute in H. discriminate H.
Qed.

(** C10. Whatever the detector, a text whose trimmed length is below 20
    yields no finding.  The guard is separate from the per-unit
    threshold: ["severe crack found"] has trimmed length 18, passes
    segmentation as one unit on which the rules find Cracks, and still
    yields no finding. *)
Theorem short_document_guard :
  (forall (self : Detector) (text : str),
     Str.len (Str.strip text) < 20 -> detect_defects self text = Ok [])
  /\ (let text := lit "severe crack found" in
      Str.len (Str.strip text) = 18
      /\ _split_into_sentences text = [text]
      /\ _rule_based_classify rules_only_detector text
         = Ok [ {| r_type := Cracks;
                   r_confidence := 0.7%float;
                   r_method := rule_based |} ]
      /\ detect_defects rules_only_detector text = Ok []).
Proof.
  split; [exact PipelineFacts.detect_defects_guard | ].
  vm_compute. repeat split.
Qed.

(** A short document with a defect keyword. *)
Lemma short_document_guard_witness :
  Str.len (Str.strip (lit "  Damp wall.  ")) < 20
  /\ detect_defects rules_only_detector (lit "  Damp wall.  ") = Ok [].
Proof.
  assert (H : Str.len (Str.strip (lit "  Damp wall.  ")) < 20)
    by (vm_compute; lia).
  split; [exact H | exact (proj1 short_document_guard _ _ H)].
Defined.

(** C4. Severity inference looks at the lower-cased sentence only, so
    it is case-insensitive, and it follows a fixed priority: High exactly
    when a High-severity keyword occurs in it, Medium exactly when none
    does and a Medium-severity keyword occurs, Low exactly when neither
    kind occurs.  A sentence with both a High-severity and a
    Medium-severity keyword is High. *)
Theorem severity_priority :
  forall sentence : str,
    (_determine_severity sentence = High <->
     mentions high_severity_keywords sentence)
    /\ (_determine_severity sentence = Medium <->
        ~ mentions high_severity_keywords sentence
        /\ mentions medium_severity_keywords sentence)
    /\ (_determine_severity sentence = Low <->
        ~ mentions high_severity_keywords sentence
        /\ ~ mentions medium_severity_keywords sentence)
    /\ (mentions high_severity_keywords sentence ->
        mentions medium_severity_keywords sentence ->
        _determine_severity sentence = High)
    /\ (forall other,
          Str.lower other = Str.lower sentence ->
          _determine_severity other = _determine_severity sentence).
Proof.
  intros sentence.
  destruct (MergeFacts.severity_cases sentence)
    as [[Hh ->] | [[Hh [Hm ->]] | [Hh [Hm ->]]]].
  - repeat split; try discriminate; try tauto.
    intros other Hlow.
    destruct (MergeFacts.severity_cases other)
      as [[Hh' ->] | [[Hh' [Hm' ->]] | [Hh' [Hm' ->]]]];
      unfold mentions in *; rewrite Hlow in *; tauto.
  - repeat split; try discriminate; try tauto.
    intros other Hlow.
    destruct (MergeFacts.severity_cases other)
      as [[Hh' ->] | [[Hh' [Hm' ->]] | [Hh' [Hm' ->]]]];
      unfold mentions in *; rewrite Hlow in *; tauto.
  - repeat split; try discriminate; try tauto.
    intros other Hlow.
    destruct (MergeFacts.severity_cases other)
      as [[Hh' ->] | [[Hh' [Hm' ->]] | [Hh' [Hm' ->]]]];
      unfold mentions in *; rewrite Hlow in *; tauto.
Qed.

(** C6. A rule-based match whose category equals the category of the ML
    result becomes, at its own position of the output, one finding with
    detection method hybrid_ml_rule and confidence
    min(0.95, (ml + rule) / 2 + 0.1); the output has one finding per
    rule-based match and nothing more.  An ML confidence of 0.8 agreeing
    with a rule confidence of 0.7 gives one finding of confidence
    0.85. *)
Theorem agreement_merges_to_hybrid :
  (forall (ml : RawResult) (rule_results : list RawResult) (sentence : str)
          (i : nat) (r : RawResult),
     nth_error rule_results i = Some r ->
     r_type r = r_type ml ->
     length (_combine_results (Some ml) rule_results sentence)
     = length rule_results
     /\ nth_error (_combine_results (Some ml) rule_results sentence) i
        = Some {| f_type := r_type ml;
                  f_sentence := sentence;
                  f_confidence :=
                    py_min 0.95
                           ((r_confidence ml + r_confidence r) / 2 + 0.1)%float;
                  f_severity := _determine_severity sentence;
                  f_detection_method := hybrid_ml_rule |})
  /\ (forall (sentence : str) (ml_method rule_method : Method),
        _combine_results
          (Some {| r_type := Damp; r_confidence := 0.8%float;
                   r_method := ml_method |})
          [ {| r_type := Damp; r_confidence := 0.7%float;
               r_method := rule_method |} ]
          sentence
        = [ {| f_type := Damp;
               f_sentence := sentence;
               f_confidence := 0.85%float;
               f_severity := _determine_severity sentence;
               f_detection_method := hybrid_ml_rule |} ]).
Proof.
  split.
  - intros ml rule_results sentence i r Hnth Htype.
    destruct rule_results as [ | r0 rest];
      [destruct i; discriminate Hnth | ].
    rewrite MergeFacts.combine_with_ml. split; [apply length_map | ].
    rewrite nth_error_map, Hnth. cbn [option_map]. f_equal.
    unfold hybrid_or_rule. rewrite Htype.
    unfold Category_eqb.
    destruct (Category_eq_dec (r_type ml) (r_type ml)); [reflexivity | ].
    congruence.
  - intros sentence ml_method rule_method. reflexivity.
Qed.

(** The merge at a sentence with two rule-based matches, the second of
    which agrees with the ML result. *)
Lemma agreement_merges_to_hybrid_witness :
  nth_error
    (_combine_results
       (Some {| r_type := Damp; r_confidence := 0.8%float;
                r_method := ml_enhanced |})
       [ {| r_type := Cracks; r_confidence := 0.7%float;
            r_method := rule_based |};
         {| r_type := Damp; r_confidence := 0.7%float;
            r_method := rule_based |} ]
       (lit "Damp and cracks were seen in the cellar wall"))
    1
  = Some {| f_type := Damp;
            f_sentence := lit "Damp and cracks were seen in the cellar wall";
            f_confidence := 0.85%float;
            f_severity := Low;
            f_detection_method := hybrid_ml_rule |}.
Proof.
  exact (proj2 (proj1 agreement_merges_to_hybrid
                  {| r_type := Damp; r_confidence := 0.8%float;
                     r_method := ml_enhanced |}
                  [ {| r_type := Cracks; r_confidence := 0.7%float;
                       r_method := rule_based |};
                    {| r_type := Damp; r_confidence := 0.7%float;
                       r_method := rule_based |} ]
                  (lit "Damp and cracks were seen in the cellar wall")
                  1
                  {| r_type := Damp; r_confidence := 0.7%float;
                     r_method := rule_based |}
                  eq_refl eq_refl)).
Defined.


(** C2. For every sentence the rule-based classifier returns a list of
    matches with at most one match per category.  A category has a
    match exactly when one of its patterns is found in the lower-cased
    sentence, and the inner loop stops at the first such pattern: on a
    list [pre ++ p :: post] where nothing of [pre] is found and [p] is,
    the match is built for [p] and the patterns of [post] are not
    tried, whatever they are. *)
Theorem one_match_per_category :
  forall (ML_AVAILABLE : bool) (pipeline : py Pipeline) (sentence : str),
  exists results,
    _rule_based_classify (__init__ ML_AVAILABLE pipeline) sentence
    = Ok results
    /\ NoDup (map r_type results)
    /\ (forall c, In c (map r_type results) <->
                  exists patterns pre p post,
                    In (c, patterns) rule_patterns
                    /\ patterns = pre ++ p :: post
                    /\ first_match pre p (Str.lower sentence))
    /\ (forall c pre p post x,
          first_match pre p x ->
          classify_patterns c (pre ++ p :: post) x
          = (confidence <- _calculate_rule_confidence p x ;;
             Ok (Some {| r_type := c;
                         r_confidence := confidence;
                         r_method := rule_based |}))).
Proof.
  intros flag pipeline sentence.
  rewrite (RuleFacts.rule_based_classify_eq _ _
             (PipelineFacts.init_compiles flag pipeline)).
  rewrite PipelineFacts.init_patterns.
  eexists. split; [reflexivity | ].
  rewrite RuleFacts.rule_results_types.
  split; [ | split].
  - apply RuleFacts.NoDup_keys_filter, RuleFacts.rule_patterns_keys.
  - intros c. rewrite in_map_iff. split.
    + intros [[c' patterns] [Hc Hin]]. cbn [fst] in Hc. subst c'.
      apply filter_In in Hin as [Hin Hhit].
      assert (Hcompile : forallb compiles patterns = true).
      { pose proof RuleFacts.rule_patterns_compile as Hall.
        unfold table_compiles in Hall. rewrite forallb_forall in Hall.
        exact (Hall _ Hin). }
      destruct (RuleFacts.hit_first_match _ _ Hcompile Hhit)
        as (pre & p & post & Hsplit & Hfirst).
      now exists patterns, pre, p, post.
    + intros (patterns & pre & p & post & Hin & -> & Hfirst).
      exists (c, pre ++ p :: post). split; [reflexivity | ].
      apply filter_In. split; [exact Hin | ].
      exact (RuleFacts.first_match_hit _ _ _ _ Hfirst).
  - intros c pre p post x. apply RuleFacts.classify_patterns_first.
Qed.

(** C5, as the code has it.  Every rule-based match of a sentence gets
    the same confidence, whatever its category: 0.7 when the lower-cased
    sentence contains none of the five phrases of the boost table, and
    otherwise min(0.9, 0.7 + boost) for the first phrase of the table
    (in its order: structural crack 0.2, water damage 0.2, electrical
    hazard 0.25, foundation 0.15, safety hazard 0.2) that the sentence
    contains.  In binary64 the four possible values are 0.7, 0.85,
    0.8999999999999999 and 0.9. *)
Theorem rule_confidence_ignores_category :
  forall (ML_AVAILABLE : bool) (pipeline : py Pipeline) (sentence : str),
  exists results,
    _rule_based_classify (__init__ ML_AVAILABLE pipeline) sentence
    = Ok results
    /\ Forall (fun m =>
                 r_method m = rule_based
                 /\ r_confidence m
                    = py_min 0.9
                        match first_phrase (Str.lower sentence) with
                        | Some (_, boost) => (0.7 + boost)%float
                        | None => 0.7%float
                        end)
              results
    /\ (first_phrase (Str.lower sentence) = None <->
        forall phrase boost,
          In (phrase, boost) specificity_boosts ->
          ~ substring phrase (Str.lower sentence))
    /\ (forall phrase boost,
          first_phrase (Str.lower sentence) = Some (phrase, boost) ->
          exists before after,
            specificity_boosts = before ++ (phrase, boost) :: after
            /\ substring phrase (Str.lower sentence)
            /\ forall entry, In entry before ->
                             ~ substring (fst entry) (Str.lower sentence))
    /\ (py_min 0.9 0.7 = 0.7
        /\ py_min 0.9 (0.7 + 0.15) = 0.85
        /\ py_min 0.9 (0.7 + 0.2) = 0.8999999999999999
        /\ py_min 0.9 (0.7 + 0.25) = 0.9)%float.
Proof.
  intros flag pipeline sentence.
  rewrite (RuleFacts.rule_based_classify_eq _ _
             (PipelineFacts.init_compiles flag pipeline)).
  eexists. split; [reflexivity | ].
  split; [ | split; [ | split]].
  - unfold rule_results. apply Forall_map, Forall_forall.
    intros entry _. split; reflexivity.
  - unfold first_phrase. split.
    + intros Hnone phrase boost Hin Hsub.
      apply StrFacts.contains_iff in Hsub.
      pose proof (find_none _ _ Hnone _ Hin) as H. cbn [fst] in H.
      congruence.
    + intros Hall.
      destruct (find _ specificity_boosts) as [[phrase boost] | ] eqn:E;
        [exfalso | reflexivity].
      apply find_some in E as [Hin Hsub]. cbn [fst] in Hsub.
      apply StrFacts.contains_iff in Hsub. exact (Hall _ _ Hin Hsub).
  - intros phrase boost E. unfold first_phrase in E.
    apply RuleFacts.find_first in E
      as (before & after & Hsplit & Hsub & Hbefore).
    exists before, after. split; [exact Hsplit | ]. cbn [fst] in Hsub.
    split; [now apply StrFacts.contains_iff | ].
    intros entry Hin Hcontra. apply StrFacts.contains_iff in Hcontra.
    specialize (Hbefore _ Hin). cbn beta in Hbefore. congruence.
  - vm_compute. repeat split.
Qed.

(** C5 as stated fails.  In the first sentence of scenario A the
    rule-based classifier returns a match for Cracks whose confidence is
    boosted to 0.85, although no boost phrase belonging to Cracks occurs
    in the sentence: the phrase that occurs is "foundation", a pattern
    of Structural. *)
Lemma cracks_match_boosted_by_foundation :
  exists m results,
    _rule_based_classify rules_only_detector scenario_A_unit = Ok results
    /\ In m results
    /\ r_type m = Cracks
    /\ r_confidence m = 0.85%float
    /\ (r_confidence m <? 0.7 + 0.15)%float = false
    /\ (0.7 <? r_confidence m)%float = true
    /\ phrase_of_category (lit "foundation") Structural
    /\ forall phrase boost,
         In (phrase, boost) specificity_boosts ->
         substring phrase (Str.lower scenario_A_unit) ->
         ~ phrase_of_category phrase Cracks.
Proof.
  exists {| r_type := Cracks; r_confidence := 0.85%float;
            r_method := rule_based |}.
  eexists. split; [vm_compute; reflexivity | ].
  split; [now left | ].
  do 4 (split; [reflexivity | ]).
  split.
  { eexists. split; [cbn [rule_patterns In]; do 4 right; left; reflexivity | ].
    vm_compute. tauto. }
  intros phrase boost Hin Hsub [patterns [Htable Hpattern]].
  apply StrFacts.contains_iff in Hsub.
  assert (Hphrase : phrase = lit "foundation").
  { cbn [specificity_boosts In] in Hin.
    destruct Hin as [H | [H | [H | [H | [H | []]]]]];
      injection H as <- _; vm_compute in Hsub;
      first [discriminate Hsub | reflexivity]. }
  subst phrase. cbn [rule_patterns In] in Htable.
  repeat (destruct Htable as [H | Htable]; [try discriminate H | ]);
    [ | destruct Htable].
  injection H as <-. vm_compute in Hpattern.
  repeat (destruct Hpattern as [Hpattern | Hpattern];
          [discriminate Hpattern | ]).
  exact Hpattern.
Qed.

(** C3. When the scores of the pipeline are never negative, every
    finding that [detect_defects] returns has a confidence within
    [0, 0.95], whichever of the three detection methods (rule_based,
    ml_only, hybrid_ml_rule) produced it. *)
Theorem confidence_within_bounds :
  forall (ML_AVAILABLE : bool) (pipeline : py Pipeline) (text : str),
    (forall loaded, pipeline = Ok loaded -> scores_nonneg loaded) ->
    exists findings,
      detect_defects (__init__ ML_AVAILABLE pipeline) text = Ok findings
      /\ Forall (fun f =>
                   (0 <=? f_confidence f)%float = true
                   /\ (f_confidence f <=? 0.95)%float = true)
                findings.
Proof.
  intros flag pipeline text Hscores.
  rewrite (PipelineFacts.detect_defects_eq _ _
             (PipelineFacts.init_compiles flag pipeline)).
  eexists. split; [reflexivity | ].
  destruct (Str.len (Str.strip text) <? 20); [constructor | ].
  apply Forall_forall. intros f Hin.
  apply in_flat_map in Hin as [sentence [_ Hin]].
  assert (Hrange : in_range (f_confidence f) = true).
  { unfold findings_of in Hin.
    destruct (Str.len (Str.strip sentence) <? 15); [destruct Hin | ].
    revert f Hin. apply Forall_forall. apply MergeFacts.combine_in_range.
    - intros ml Hml. unfold ml_results_of in Hml.
      destruct (ml_available _ && _); [ | discriminate].
      apply (MergeFacts.ml_classify_in_range _ _ _) with (2 := Hml).
      intros loaded Hloaded. apply Hscores.
      destruct flag, pipeline as [c | e]; cbn in Hloaded;
        try discriminate. now injection Hloaded as ->.
    - apply MergeFacts.rule_results_in_range. }
  unfold in_range in Hrange. now apply andb_true_iff in Hrange.
Qed.

(** A detector whose pipeline labels every sentence NEGATIVE with
    score 0.9, on a sentence with a boost phrase. *)
Lemma confidence_within_bounds_witness :
  exists findings,
    detect_defects (__init__ true (Ok always_negative))
                   (lit "There is water damage on the ceiling of the hall.")
    = Ok findings
    /\ Forall (fun f =>
                 (0 <=? f_confidence f)%float = true
                 /\ (f_confidence f <=? 0.95)%float = true)
              findings.
Proof.
  apply (confidence_within_bounds true (Ok always_negative)).
  intros loaded H. injection H as <-.
  intros x predictions Hcall. injection Hcall as <-.
  repeat constructor.
Defined.

(** * Further facts about the document loop *)

Module CoverageFacts.

(** A unit of the segmenter is never skipped by the loop of
    [detect_defects]. *)
Lemma unit_not_skipped text u :
  In u (_split_into_sentences text) ->
  (Str.len (Str.strip u) <? 15) = false.
Proof.
  intros Hu. apply PipelineFacts.split_units in Hu as [piece [_ [Hlen ->]]].
  rewrite PipelineFacts.strip_idem. apply Nat.ltb_ge. lia.
Qed.

Lemma ml_results_need_rules self sentence ml :
  table_compiles (defect_patterns self) = true ->
  ml_results_of self sentence = Some ml ->
  exists r rest,
    rule_results (defect_patterns self) sentence = r :: rest
    /\ r_type r = r_type ml.
Proof.
  intros Htable. unfold ml_results_of.
  destruct (ml_available self && _); [ | discriminate].
  now apply PipelineFacts.ml_category_is_first_rule_category.
Qed.

(** The shape of a merge in which an ML result comes with at least one
    rule-based match. *)
Lemma combine_shape ml_results rules sentence :
  (forall ml, ml_results = Some ml -> rules <> []) ->
  map f_type (_combine_results ml_results rules sentence) = map r_type rules
  /\ Forall (fun f => f_sentence f = sentence
                      /\ f_severity f = _determine_severity sentence
                      /\ (f_detection_method f = rule_based
                          \/ f_detection_method f = hybrid_ml_rule))
            (_combine_results ml_results rules sentence).
Proof.
  intros Hml. unfold _combine_results.
  destruct ml_results as [ml | ], rules as [ | r rest].
  - now destruct (Hml ml eq_refl).
  - split.
    + rewrite map_map. apply map_ext. intros r0. unfold hybrid_or_rule.
      now destruct (Category_eqb (r_type r0) (r_type ml)).
    + apply Forall_map, Forall_forall. intros r0 _. unfold hybrid_or_rule.
      destruct (Category_eqb (r_type r0) (r_type ml)); cbn; tauto.
  - split; constructor.
  - split.
    + rewrite map_map. reflexivity.
    + apply Forall_map, Forall_forall. intros r0 _. cbn. tauto.
Qed.

Lemma findings_of_unit self text u :
  table_compiles (defect_patterns self) = true ->
  In u (_split_into_sentences text) ->
  map f_type (findings_of self u)
  = map r_type (rule_results (defect_patterns self) u)
  /\ Forall (fun f => f_sentence f = u
                      /\ f_severity f = _determine_severity u
                      /\ (f_detection_method f = rule_based
                          \/ f_detection_method f = hybrid_ml_rule))
            (findings_of self u).
Proof.
  intros Htable Hu. unfold findings_of.
  rewrite (unit_not_skipped _ _ Hu).
  apply combine_shape. intros ml Hml Hnil.
  destruct (ml_results_need_rules _ _ _ Htable Hml) as (r & rest & H & _).
  congruence.
Qed.

Lemma rule_results_length table sentence :
  length (rule_results table sentence) <= length table.
Proof. unfold rule_results. rewrite length_map. apply filter_length_le. Qed.

Lemma flat_map_length_bound {A B : Type} (f : A -> list B) (n : nat)
      (l : list A) :
  (forall a, In a l -> length (f a) <= n) ->
  length (flat_map f l) <= n * length l.
Proof.
  induction l as [ | a l IH]; intros H; cbn [flat_map length]; [lia | ].
  rewrite length_app.
  specialize (H a (or_introl eq_refl)) as Ha.
  assert (Hl : length (flat_map f l) <= n * length l).
  { apply IH. intros b Hb. apply H. now right. }
  lia.
Qed.

(** With the ML layer silent on every sentence, the loop works with the
    rule-based matches alone. *)
Lemma findings_of_rules_only self sentence :
  ml_results_of self sentence = None ->
  findings_of self sentence
  = if Str.len (Str.strip sentence) <? 15 then []
    else map (rule_only sentence)
             (rule_results (defect_patterns self) sentence).
Proof.
  intros H. unfold findings_of. rewrite H.
  destruct (Str.len (Str.strip sentence) <? 15); [reflexivity | ].
  now destruct (rule_results _ sentence).
Qed.

Lemma str_eqb_eq x y : Str.eqb x y = true -> x = y.
Proof.
  unfold Str.eqb. now destruct (list_eq_dec ascii_dec x y).
Qed.

(** What an ML result is made of. *)
Lemma ml_result_fields self sentence ml :
  _ml_classify_sentence self sentence = Some ml ->
  r_method ml = ml_enhanced
  /\ exists pipeline first others,
       classifier self = Some pipeline
       /\ pipeline sentence = Ok (first :: others)
       /\ label first = lit "NEGATIVE"
       /\ r_confidence ml = py_min 0.95 (score first * 1.2)%float.
Proof.
  unfold _ml_classify_sentence.
  destruct (classifier self) as [pipeline | ]; [ | discriminate].
  unfold ml_body.
  destruct (pipeline sentence) as [[ | first others] | e] eqn:Ecall;
    cbn [bind try_except]; try discriminate.
  destruct (Str.eqb (label first) (lit "NEGATIVE")) eqn:Elabel;
    cbn [try_except]; [ | discriminate].
  destruct (_get_primary_defect_type self sentence) as [[t | ] | e];
    cbn [bind try_except]; try discriminate.
  intros H. injection H as <-. split; [reflexivity | ].
  exists pipeline, first, others.
  split; [reflexivity | split; [exact Ecall | split; [ | reflexivity]]].
  now apply str_eqb_eq.
Qed.

Lemma silent_gives_none self pipeline sentence :
  classifier self = Some pipeline ->
  silent_on pipeline sentence ->
  _ml_classify_sentence self sentence = None.
Proof.
  intros Hc Hsilent. unfold _ml_classify_sentence. rewrite Hc.
  unfold ml_body, silent_on in *.
  destruct (pipeline sentence) as [[ | first others] | e];
    cbn [bind try_except]; try reflexivity.
  now rewrite Hsilent.
Qed.

Lemma at_most_one_of_type t rules :
  NoDup (map r_type rules) ->
  length (filter (fun r => Category_eqb (r_type r) t) rules) <= 1.
Proof.
  induction rules as [ | r rules IH]; intros Hnodup; [cbn; lia | ].
  cbn [map] in Hnodup. inversion Hnodup as [ | k ks Hnotin Hrest]; subst.
  cbn [filter]. unfold Category_eqb at 1.
  destruct (Category_eq_dec (r_type r) t) as [<- | _]; [ | now apply IH].
  assert (Hnone : filter (fun r0 => Category_eqb (r_type r0) (r_type r)) rules
                  = []).
  { destruct (filter _ rules) as [ | r0 rest] eqn:E; [reflexivity | exfalso].
    assert (Hin : In r0 (filter (fun r1 => Category_eqb (r_type r1) (r_type r))
                                rules))
      by (rewrite E; now left).
    apply filter_In in Hin as [Hin Heq]. unfold Category_eqb in Heq.
    destruct (Category_eq_dec (r_type r0) (r_type r)) as [Heq' | ];
      [ | discriminate].
    apply Hnotin. rewrite <- Heq'. now apply in_map. }
  rewrite Hnone. cbn. lia.
Qed.

Lemma hybrid_count ml_results rules sentence :
  NoDup (map r_type rules) ->
  (forall ml, ml_results = Some ml -> rules <> []) ->
  length (filter is_hybrid (_combine_results ml_results rules sentence)) <= 1.
Proof.
  intros Hnodup Hml. unfold _combine_results.
  destruct ml_results as [ml | ], rules as [ | r rest].
  - now destruct (Hml ml eq_refl).
  - pose proof (at_most_one_of_type (r_type ml) _ Hnodup) as Hone.
    assert (Hsame : forall l,
               length (filter is_hybrid (map (hybrid_or_rule ml sentence) l))
               = length (filter (fun r0 => Category_eqb (r_type r0) (r_type ml))
                                l)).
    { induction l as [ | r0 l IH]; [reflexivity | ].
      cbn [map filter]. unfold hybrid_or_rule at 1.
      destruct (Category_eqb (r_type r0) (r_type ml));
        cbn [is_hybrid f_detection_method length]; now rewrite IH. }
    now rewrite Hsame.
  - cbn. lia.
  - generalize (r :: rest). intros l.
    induction l as [ | r0 l IH]; [cbn; lia | exact IH].
Qed.

Lemma rule_results_nodup sentence :
  NoDup (map r_type (rule_results rule_patterns sentence)).
Proof.
  rewrite RuleFacts.rule_results_types.
  apply RuleFacts.NoDup_keys_filter, RuleFacts.rule_patterns_keys.
Qed.

Lemma combine_rule_based_confidence ml_results rules sentence q :
  Forall (fun r => r_confidence r = q) rules ->
  Forall (fun f => f_detection_method f = rule_based -> f_confidence f = q)
         (_combine_results ml_results rules sentence).
Proof.
  intros Hrules. unfold _combine_results.
  destruct ml_results as [ml | ], rules as [ | r rest].
  - constructor; [discriminate | constructor].
  - apply Forall_map. revert Hrules. apply Forall_impl. intros r0 Hr0.
    unfold hybrid_or_rule.
    destruct (Category_eqb (r_type r0) (r_type ml)); cbn;
      [discriminate | now intros _].
  - constructor.
  - apply Forall_map. revert Hrules. apply Forall_impl. intros r0 Hr0.
    now intros _.
Qed.

Lemma strip_keeps (P : ascii -> bool) x :
  forallb P x = true -> forallb P (Str.strip x) = true.
Proof.
  intros H. unfold Str.strip.
  destruct (PipelineFacts.lstrip_suffix x) as [spaces Hx].
  destruct (PipelineFacts.rstrip_prefix (Str.lstrip x)) as [spaces' Hy].
  rewrite Hx, Hy, !forallb_app in H.
  apply andb_true_iff in H as [_ H]. now apply andb_true_iff in H as [H _].
Qed.

End CoverageFacts.

(** * Further properties of the detector *)

(** X1. A pipeline that, on every sentence, raises, returns no
    prediction or returns a first prediction not labelled NEGATIVE
    changes nothing: the detector gives the result of the detector
    without ML layer. *)
Theorem silent_pipeline_gives_rule_based_result :
  forall (pipeline : Pipeline) (text : str),
    (forall x, silent_on pipeline x) ->
    detect_defects (__init__ true (Ok pipeline)) text
    = detect_defects rules_only_detector text.
Proof.
  intros pipeline text Hsilent.
  rewrite (PipelineFacts.detect_defects_eq _ _
             (PipelineFacts.init_compiles true (Ok pipeline))).
  unfold rules_only_detector.
  rewrite (PipelineFacts.detect_defects_eq _ _
             (PipelineFacts.init_compiles false (Raise ExternalError))).
  destruct (Str.len (Str.strip text) <? 20); [reflexivity | ].
  f_equal. apply flat_map_ext. intros sentence.
  rewrite !CoverageFacts.findings_of_rules_only; [reflexivity | reflexivity | ].
  unfold ml_results_of. cbn [__init__ ml_available classifier fst snd andb].
  now apply (CoverageFacts.silent_gives_none _ pipeline).
Qed.

(** A pipeline that always raises, on a document with a defect. *)
Lemma silent_pipeline_gives_rule_based_result_witness :
  detect_defects (__init__ true (Ok failing_pipeline))
                 (lit "Damp patches were seen on the north wall.")
  = detect_defects rules_only_detector
                   (lit "Damp patches were seen on the north wall.").
Proof.
  apply (silent_pipeline_gives_rule_based_result failing_pipeline).
  intros x. exact I.
Defined.

(** X2. The ML layer never invents a category.  Whenever
    [_ml_classify_sentence] returns a result, the rule-based classifier
    has at least one match for the sentence, and the ML result carries
    the category of the first of them, the method ml_enhanced and the
    confidence min(0.95, score * 1.2) of a first prediction labelled
    NEGATIVE. *)
Theorem ml_result_takes_first_rule_category :
  forall (ML_AVAILABLE : bool) (pipeline : py Pipeline) (sentence : str)
         (ml : RawResult),
    _ml_classify_sentence (__init__ ML_AVAILABLE pipeline) sentence = Some ml ->
    (exists r rest,
        _rule_based_classify (__init__ ML_AVAILABLE pipeline) sentence
        = Ok (r :: rest)
        /\ r_type ml = r_type r)
    /\ r_method ml = ml_enhanced
    /\ exists loaded first others,
         pipeline = Ok loaded
         /\ loaded sentence = Ok (first :: others)
         /\ label first = lit "NEGATIVE"
         /\ r_confidence ml = py_min 0.95 (score first * 1.2)%float.
Proof.
  intros flag pipeline sentence ml Hml.
  pose proof (PipelineFacts.init_compiles flag pipeline) as Htable.
  split; [ | split].
  - destruct (PipelineFacts.ml_category_is_first_rule_category
                _ _ _ Htable Hml) as (r & rest & Hrules & Htype).
    exists r, rest. rewrite (RuleFacts.rule_based_classify_eq _ _ Htable).
    now rewrite Hrules.
  - exact (proj1 (CoverageFacts.ml_result_fields _ _ _ Hml)).
  - destruct (proj2 (CoverageFacts.ml_result_fields _ _ _ Hml))
      as (loaded & first & others & Hc & Hcall & Hlabel & Hconf).
    exists loaded, first, others. split; [ | now repeat split].
    destruct flag, pipeline as [c | e]; cbn in Hc; try discriminate.
    now injection Hc as ->.
Qed.

Lemma ml_result_takes_first_rule_category_witness :
  exists r rest,
    _rule_based_classify (__init__ true (Ok always_negative))
                         (lit "Rust and damp were found near the main panel")
    = Ok (r :: rest)
    /\ Damp = r_type r.
Proof.
  exact (proj1 (ml_result_takes_first_rule_category
                  true (Ok always_negative)
                  (lit "Rust and damp were found near the main panel")
                  {| r_type := Damp; r_confidence := 0.95%float;
                     r_method := ml_enhanced |}
                  eq_refl)).
Defined.

(** X3. [detect_defects] never returns a finding with detection method
    ml_only: every finding is rule_based or hybrid_ml_rule, and there
    is at most one hybrid finding per unit of the document. *)
Theorem no_ml_only_finding :
  forall (ML_AVAILABLE : bool) (pipeline : py Pipeline) (text : str),
  exists findings,
    detect_defects (__init__ ML_AVAILABLE pipeline) text = Ok findings
    /\ Forall (fun f => f_detection_method f = rule_based
                        \/ f_detection_method f = hybrid_ml_rule)
              findings
    /\ length (filter is_hybrid findings)
       <= length (_split_into_sentences text).
Proof.
  intros flag pipeline text.
  pose proof (PipelineFacts.init_compiles flag pipeline) as Htable.
  rewrite (PipelineFacts.detect_defects_eq _ _ Htable).
  eexists. split; [reflexivity | ].
  destruct (Str.len (Str.strip text) <? 20);
    [split; [constructor | cbn; lia] | ].
  split.
  - apply Forall_forall. intros f Hin.
    apply in_flat_map in Hin as [u [Hu Hin]].
    destruct (CoverageFacts.findings_of_unit _ _ _ Htable Hu) as [_ Hall].
    rewrite Forall_forall in Hall. now apply Hall.
  - assert (Hone : forall u, In u (_split_into_sentences text) ->
                     length (filter is_hybrid
                                    (findings_of (__init__ flag pipeline) u)) <= 1).
    { intros u Hu. unfold findings_of.
      rewrite (CoverageFacts.unit_not_skipped _ _ Hu).
      apply CoverageFacts.hybrid_count.
      - rewrite PipelineFacts.init_patterns.
        apply CoverageFacts.rule_results_nodup.
      - intros ml Hml Hnil.
        destruct (CoverageFacts.ml_results_need_rules _ _ _ Htable Hml)
          as (r & rest & H & _).
        congruence. }
    revert Hone. generalize (_split_into_sentences text). intros units.
    induction units as [ | u units IH]; intros Hone; [cbn; lia | ].
    cbn [flat_map length]. rewrite filter_app, length_app.
    specialize (Hone u (or_introl eq_refl)) as Hu.
    assert (Hrest : length (filter is_hybrid
                              (flat_map (findings_of (__init__ flag pipeline))
                                        units)) <= length units).
    { apply IH. intros v Hv. apply Hone. now right. }
    lia.
Qed.

(** X4. A rule_based finding has one of the four confidences 0.7,
    0.85, 0.8999999999999999 and 0.9, whatever the ML layer does; when
    the ML libraries are missing or the classifier failed to load, every
    finding is rule_based. *)
Theorem rule_based_confidence_values :
  forall (ML_AVAILABLE : bool) (pipeline : py Pipeline) (text : str),
  exists findings,
    detect_defects (__init__ ML_AVAILABLE pipeline) text = Ok findings
    /\ Forall (fun f =>
                 f_detection_method f = rule_based ->
                 In (f_confidence f)
                    [0.7; 0.85; 0.8999999999999999; 0.9]%float)
              findings
    /\ (ML_AVAILABLE = false \/ (exists e, pipeline = Raise e) ->
        Forall (fun f => f_detection_method f = rule_based) findings).
Proof.
  intros flag pipeline text.
  pose proof (PipelineFacts.init_compiles flag pipeline) as Htable.
  rewrite (PipelineFacts.detect_defects_eq _ _ Htable).
  eexists. split; [reflexivity | ].
  destruct (Str.len (Str.strip text) <? 20);
    [split; [constructor | intros _; constructor] | ].
  split.
  - apply Forall_forall. intros f Hin.
    apply in_flat_map in Hin as [u [Hu Hin]].
    unfold findings_of in Hin.
    rewrite (CoverageFacts.unit_not_skipped _ _ Hu) in Hin.
    intros Hmethod.
    assert (Hconf : f_confidence f = boosted_confidence (Str.lower u)).
    { assert (Hall : Forall (fun r => r_confidence r
                                      = boosted_confidence (Str.lower u))
                            (rule_results
                               (defect_patterns (__init__ flag pipeline)) u)).
      { unfold rule_results. apply Forall_map, Forall_forall. now intros. }
      pose proof (CoverageFacts.combine_rule_based_confidence
                    (ml_results_of (__init__ flag pipeline) u) _ u _ Hall)
        as Hcombined.
      rewrite Forall_forall in Hcombined. now apply Hcombined. }
    rewrite Hconf.
    destruct (MergeFacts.boosted_values (Str.lower u))
      as [<- | [<- | [<- | [<- | []]]]]; vm_compute; tauto.
  - intros Hoff. apply Forall_forall. intros f Hin.
    apply in_flat_map in Hin as [u [Hu Hin]].
    rewrite CoverageFacts.findings_of_rules_only in Hin.
    + destruct (Str.len (Str.strip u) <? 15); [destruct Hin | ].
      apply in_map_iff in Hin as [r [<- _]]. reflexivity.
    + unfold ml_results_of.
      destruct Hoff as [-> | [e ->]]; [reflexivity | now destruct flag].
Qed.

(** X5. Every finding quotes a unit of the segmenter in its original
    casing: its sentence is one of the units of the document, trimmed,
    longer than 15 characters and free of sentence-terminal punctuation.
    Its severity is the severity of that sentence, and its category has
    a rule-based match in that sentence. *)
Theorem finding_quotes_a_unit :
  forall (ML_AVAILABLE : bool) (pipeline : py Pipeline) (text : str),
  exists findings,
    detect_defects (__init__ ML_AVAILABLE pipeline) text = Ok findings
    /\ Forall (fun f =>
                 In (f_sentence f) (_split_into_sentences text)
                 /\ Str.strip (f_sentence f) = f_sentence f
                 /\ 15 < Str.len (f_sentence f)
                 /\ forallb (fun c => negb (Re.is_terminal c)) (f_sentence f)
                    = true
                 /\ f_severity f = _determine_severity (f_sentence f)
                 /\ exists results,
                      _rule_based_classify (__init__ ML_AVAILABLE pipeline)
                                           (f_sentence f) = Ok results
                      /\ In (f_type f) (map r_type results))
              findings.
Proof.
  intros flag pipeline text.
  pose proof (PipelineFacts.init_compiles flag pipeline) as Htable.
  rewrite (PipelineFacts.detect_defects_eq _ _ Htable).
  eexists. split; [reflexivity | ].
  destruct (Str.len (Str.strip text) <? 20); [constructor | ].
  apply Forall_forall. intros f Hin.
  apply in_flat_map in Hin as [u [Hu Hin]].
  destruct (CoverageFacts.findings_of_unit _ _ _ Htable Hu) as [Htypes Hall].
  rewrite Forall_forall in Hall.
  destruct (Hall f Hin) as (Hsentence & Hseverity & _).
  rewrite Hsentence.
  pose proof Hu as Hpiece.
  apply PipelineFacts.split_units in Hpiece as [piece [Hpiece [Hlen ->]]].
  split; [exact Hu | ].
  split; [apply PipelineFacts.strip_idem | ].
  split; [exact Hlen | ].
  split.
  { apply CoverageFacts.strip_keeps.
    pose proof (PipelineFacts.split_terminal_clean text) as Hclean.
    rewrite Forall_forall in Hclean. now apply Hclean. }
  split; [exact Hseverity | ].
  rewrite (RuleFacts.rule_based_classify_eq _ _ Htable).
  eexists. split; [reflexivity | ].
  rewrite <- Htypes. now apply in_map.
Qed.

(** X6. A document has at most seven findings per unit, one per
    category of the taxonomy. *)
Theorem findings_count_bound :
  forall (ML_AVAILABLE : bool) (pipeline : py Pipeline) (text : str),
  exists findings,
    detect_defects (__init__ ML_AVAILABLE pipeline) text = Ok findings
    /\ length findings <= 7 * length (_split_into_sentences text).
Proof.
  intros flag pipeline text.
  pose proof (PipelineFacts.init_compiles flag pipeline) as Htable.
  rewrite (PipelineFacts.detect_defects_eq _ _ Htable).
  eexists. split; [reflexivity | ].
  destruct (Str.len (Str.strip text) <? 20); [cbn; lia | ].
  apply CoverageFacts.flat_map_length_bound. intros u Hu.
  destruct (CoverageFacts.findings_of_unit _ _ _ Htable Hu) as [Htypes _].
  rewrite <- (length_map f_type), Htypes, length_map.
  exact (CoverageFacts.rule_results_length rule_patterns u).
Qed.

(** X7. Nothing is lost between the classifier and the result: when the
    document passes the length guard, every rule-based match of every
    unit is reported as a finding with that unit as sentence and the
    category of the match. *)
Theorem every_match_is_reported :
  forall (ML_AVAILABLE : bool) (pipeline : py Pipeline) (text u : str)
         (findings : list Finding) (results : list RawResult) (r : RawResult),
    20 <= Str.len (Str.strip text) ->
    detect_defects (__init__ ML_AVAILABLE pipeline) text = Ok findings ->
    In u (_split_into_sentences text) ->
    _rule_based_classify (__init__ ML_AVAILABLE pipeline) u = Ok results ->
    In r results ->
    exists f, In f findings /\ f_sentence f = u /\ f_type f = r_type r.
Proof.
  intros flag pipeline text u findings results r Hguard Hdetect Hu Hrules Hr.
  pose proof (PipelineFacts.init_compiles flag pipeline) as Htable.
  rewrite (PipelineFacts.detect_defects_eq _ _ Htable) in Hdetect.
  apply Nat.ltb_ge in Hguard. rewrite Hguard in Hdetect.
  injection Hdetect as <-.
  rewrite (RuleFacts.rule_based_classify_eq _ _ Htable) in Hrules.
  injection Hrules as <-.
  destruct (CoverageFacts.findings_of_unit _ _ _ Htable Hu) as [Htypes Hall].
  assert (Hc : In (r_type r) (map f_type (findings_of (__init__ flag pipeline) u))).
  { rewrite Htypes. now apply in_map. }
  apply in_map_iff in Hc as [f [Hf Hin]].
  exists f. split; [ | split; [ | exact Hf]].
  - apply in_flat_map. now exists u.
  - rewrite Forall_forall in Hall. exact (proj1 (Hall f Hin)).
Qed.

Lemma every_match_is_reported_witness :
  exists f,
    In f [ {| f_type := Damp;
              f_sentence := lit "Damp patches were seen on the north wall";
              f_confidence := 0.7%float;
              f_severity := Low;
              f_detection_method := rule_based |} ]
    /\ f_sentence f = lit "Damp patches were seen on the north wall"
    /\ f_type f = Damp.
Proof.
  apply (every_match_is_reported
           false (Raise ExternalError)
           (lit "Damp patches were seen on the north wall.")
           (lit "Damp patches were seen on the north wall")
           _
           [ {| r_type := Damp; r_confidence := 0.7%float;
                r_method := rule_based |} ]
           {| r_type := Damp; r_confidence := 0.7%float;
              r_method := rule_based |}).
  - vm_compute. lia.
  - vm_compute. reflexivity.
  - vm_compute. tauto.
  - vm_compute. reflexivity.
  - now left.
Defined.

(** * The words of a pattern *)

Module WordFacts.

Lemma existsb_orb {A : Type} (f g : A -> bool) (l : list A) :
  existsb (fun a => f a || g a) l = existsb f l || existsb g l.
Proof.
  induction l as [ | a l IH]; [reflexivity | ].
  cbn [existsb]. rewrite IH.
  destruct (f a), (g a), (existsb f l), (existsb g l); reflexivity.
Qed.

Lemma existsb_andb {A : Type} (b : bool) (f : A -> bool) (l : list A) :
  existsb (fun a => b && f a) l = b && existsb f l.
Proof.
  induction l as [ | a l IH]; [now destruct b | ].
  cbn [existsb]. rewrite IH. now destruct b.
Qed.

Lemma existsb_ext {A : Type} (f g : A -> bool) (l : list A) :
  (forall a, f a = g a) -> existsb f l = existsb g l.
Proof.
  intros H. induction l as [ | a l IH]; [reflexivity | ].
  cbn [existsb]. now rewrite H, IH.
Qed.

Lemma existsb_map {A B : Type} (f : B -> bool) (g : A -> B) (l : list A) :
  existsb f (map g l) = existsb (fun a => f (g a)) l.
Proof.
  induction l as [ | a l IH]; [reflexivity | ].
  cbn [map existsb]. now rewrite IH.
Qed.

Lemma existsb_false {A : Type} (l : list A) :
  existsb (fun _ => false) l = false.
Proof. induction l as [ | a l IH]; [reflexivity | exact IH]. Qed.

Lemma atom_matches_chars a d :
  Re.atom_matches a d = existsb (fun c => Ascii.eqb c d) (atom_chars a).
Proof.
  destruct a as [c | members]; cbn.
  - now rewrite orb_false_r.
  - apply existsb_ext. intros c. apply Ascii.eqb_sym.
Qed.

Lemma starts_with_extended chars W x :
  existsb (fun w => Str.startswith w x)
          (flat_map (fun c => map (cons c) W) chars)
  = match x with
    | d :: x' => existsb (fun c => Ascii.eqb c d) chars
                 && existsb (fun w => Str.startswith w x') W
    | [] => false
    end.
Proof.
  induction chars as [ | c chars IH]; cbn [flat_map existsb].
  - now destruct x.
  - rewrite existsb_app.
    etransitivity; [exact (f_equal2 orb eq_refl IH) | ].
    rewrite existsb_map. destruct x as [ | d x'].
    + rewrite orb_false_r. cbn [Str.startswith]. apply existsb_false.
    + cbn [Str.startswith]. rewrite existsb_andb.
      symmetry. apply andb_orb_distrib_l.
Qed.

(** The items match a prefix of [x] exactly when one of their words is
    a prefix of [x]. *)
Lemma match_here_words r : forall x,
  Re.match_here r x = existsb (fun w => Str.startswith w x) (words r).
Proof.
  induction r as [ | it r IH]; intros x; [reflexivity | ].
  cbn [Re.match_here words]. rewrite existsb_app, starts_with_extended.
  f_equal.
  - destruct x as [ | d x']; [reflexivity | ].
    now rewrite atom_matches_chars, IH.
  - destruct (Re.it_optional it); [apply IH | reflexivity].
Qed.

(** The items are found in [x] exactly when one of their words occurs
    in [x]. *)
Lemma search_from_words r x :
  Re.search_from r x = existsb (fun w => Str.contains w x) (words r).
Proof.
  induction x as [ | d x IH]; cbn [Re.search_from Str.contains].
  - rewrite existsb_orb, existsb_false, orb_false_r, orb_false_r.
    apply match_here_words.
  - rewrite existsb_orb, IH. f_equal. apply match_here_words.
Qed.

Lemma found_words p x :
  found p x = existsb (fun w => Str.contains w x) (pattern_words p).
Proof.
  unfold found, pattern_words.
  destruct (Re.compile p); [apply search_from_words | reflexivity].
Qed.

Lemma lower_char_not_upper c : Str.isupper (Str.lower_char c) = false.
Proof.
  destruct c as [b0 b1 b2 b3 b4 b5 b6 b7].
  destruct b0, b1, b2, b3, b4, b5, b6, b7; reflexivity.
Qed.

Lemma lower_has_no_upper sentence w :
  substring w (Str.lower sentence) -> has_upper w = false.
Proof.
  intros (pre & post & H). unfold has_upper.
  destruct (existsb Str.isupper w) eqn:E; [exfalso | reflexivity].
  apply existsb_exists in E as [c [Hin Hupper]].
  assert (Hc : In c (Str.lower sentence)).
  { rewrite H. apply in_or_app. right. apply in_or_app. now left. }
  unfold Str.lower in Hc. apply in_map_iff in Hc as [c0 [<- _]].
  rewrite lower_char_not_upper in Hupper. discriminate.
Qed.

Lemma substring_trans k w x : substring k w -> substring w x -> substring k x.
Proof.
  intros (pre & post & ->) (pre' & post' & ->).
  exists (pre' ++ pre), (post ++ post'). now rewrite <- !app_assoc.
Qed.

(** A category has a match exactly when one of the words of its
    patterns occurs in the lower-cased sentence. *)
Lemma category_hit_words c sentence :
  In c (map r_type (rule_results rule_patterns sentence)) <->
  exists w, In w (category_words c) /\ substring w (Str.lower sentence).
Proof.
  rewrite RuleFacts.rule_results_types, in_map_iff. unfold category_words.
  split.
  - intros [[c' patterns] [Hc Hin]]. cbn [fst] in Hc. subst c'.
    apply filter_In in Hin as [Hin Hhit]. unfold entry_hit in Hhit.
    cbn [snd] in Hhit. apply existsb_exists in Hhit as [p [Hp Hfound]].
    rewrite found_words in Hfound.
    apply existsb_exists in Hfound as [w [Hw Hsub]].
    exists w. split; [ | now apply StrFacts.contains_iff].
    apply in_flat_map. exists (c, patterns). split; [exact Hin | ].
    cbn [fst snd]. unfold Category_eqb.
    destruct (Category_eq_dec c c); [ | congruence].
    apply in_flat_map. now exists p.
  - intros [w [Hw Hsub]]. apply in_flat_map in Hw as [[c' patterns] [Hin Hw]].
    cbn [fst snd] in Hw. unfold Category_eqb in Hw.
    destruct (Category_eq_dec c' c) as [-> | ]; [ | destruct Hw].
    apply in_flat_map in Hw as [p [Hp Hw]].
    exists (c, patterns). split; [reflexivity | ].
    apply filter_In. split; [exact Hin | ].
    unfold entry_hit. cbn [snd]. apply existsb_exists. exists p.
    split; [exact Hp | ]. rewrite found_words. apply existsb_exists.
    exists w. split; [exact Hw | now apply StrFacts.contains_iff].
Qed.

(** Every word of a category holds an upper-case letter or one of the
    category's keywords, and every keyword is one of the words. *)
Lemma keywords_cover c :
  forallb (fun w => has_upper w
                    || existsb (fun k => Str.contains k w) (keywords c))
          (category_words c) = true
  /\ forallb (fun k => existsb (Str.eqb k) (category_words c))
             (keywords c) = true.
Proof. destruct c; vm_compute; split; reflexivity. Qed.

End WordFacts.

(** X8. What decides a category is a fixed list of keywords: the
    rule-based classifier reports a category for a sentence exactly when
    the lower-cased sentence contains one of the category's keywords as
    a substring, anywhere and without word boundaries. *)
Theorem category_decided_by_keywords :
  forall (ML_AVAILABLE : bool) (pipeline : py Pipeline) (sentence : str),
  exists results,
    _rule_based_classify (__init__ ML_AVAILABLE pipeline) sentence
    = Ok results
    /\ forall c,
         In c (map r_type results) <->
         exists keyword,
           In keyword (keywords c)
           /\ substring keyword (Str.lower sentence).
Proof.
  intros flag pipeline sentence.
  rewrite (RuleFacts.rule_based_classify_eq _ _
             (PipelineFacts.init_compiles flag pipeline)).
  rewrite PipelineFacts.init_patterns.
  eexists. split; [reflexivity | ].
  intros c. rewrite WordFacts.category_hit_words.
  destruct (WordFacts.keywords_cover c) as [Hcover Hwords].
  rewrite forallb_forall in Hcover, Hwords.
  split.
  - intros [w [Hw Hsub]]. specialize (Hcover w Hw).
    rewrite (WordFacts.lower_has_no_upper _ _ Hsub) in Hcover.
    cbn [orb] in Hcover. apply existsb_exists in Hcover as [k [Hk Hkw]].
    exists k. split; [exact Hk | ].
    apply StrFacts.contains_iff in Hkw.
    exact (WordFacts.substring_trans _ _ _ Hkw Hsub).
  - intros [k [Hk Hsub]]. specialize (Hwords k Hk).
    apply existsb_exists in Hwords as [w [Hw Heq]].
    apply CoverageFacts.str_eqb_eq in Heq. subst w.
    now exists k.
Qed.

(** X9. The pattern [GFCI] of the category Electrical is dead: it is
    searched in the lower-cased sentence, which holds no upper-case
    letter, so it is never found. *)
Theorem gfci_pattern_never_found :
  forall sentence : str,
    Re.search (lit "GFCI") (Str.lower sentence) = Ok false.
Proof.
  intros sentence.
  rewrite (ReFacts.search_literal (lit "GFCI") _ eq_refl). f_equal.
  destruct (Str.contains (lit "GFCI") (Str.lower sentence)) eqn:E;
    [exfalso | reflexivity].
  apply StrFacts.contains_iff in E.
  apply WordFacts.lower_has_no_upper in E. discriminate E.
Qed.

(** * Joining two documents *)

Module JoinFacts.

Lemma terminal_start_gives_empty_head x :
  match x with c :: _ => Re.is_terminal c = true | [] => False end ->
  exists rest, Re.split_terminal x = [] :: rest.
Proof.
  induction x as [ | c x IH]; [intros [] | intros Hc].
  cbn [Re.split_terminal]. rewrite Hc.
  destruct x as [ | d x']; [now exists [[]] | ].
  destruct (Re.is_terminal d) eqn:Ed.
  - apply IH. reflexivity.
  - now eexists.
Qed.

(** The pieces of [a ++ t :: b] for a terminal [t]: the first piece is
    the first piece of [a], and, empty pieces apart, the others are the
    other pieces of [a] followed by the pieces of [b]. *)
Lemma split_join t a b :
  Re.is_terminal t = true ->
  exists first rest_a rest,
    Re.split_terminal a = first :: rest_a
    /\ Re.split_terminal (a ++ t :: b) = first :: rest
    /\ filter nonempty rest
       = filter nonempty rest_a ++ filter nonempty (Re.split_terminal b).
Proof.
  intros Ht.
  assert (Hbase : exists rest,
             Re.split_terminal (t :: b) = [] :: rest
             /\ filter nonempty rest = filter nonempty (Re.split_terminal b)).
  { cbn [Re.split_terminal]. rewrite Ht.
    destruct b as [ | d b']; [now exists [[]] | ].
    destruct (Re.is_terminal d) eqn:Ed; [ | now eexists].
    destruct (terminal_start_gives_empty_head (d :: b') Ed) as [rest Hrest].
    exists rest. split; [exact Hrest | now rewrite Hrest]. }
  induction a as [ | c a (first & rest_a & rest & Ha & Hab & Hrest)].
  - destruct Hbase as (rest & Hsplit & Hrest).
    exists [], [], rest. now repeat split.
  - cbn [app Re.split_terminal]. destruct (Re.is_terminal c) eqn:Ec.
    + destruct a as [ | d a'].
      * cbn [app]. rewrite Ht. destruct Hbase as (rest0 & Hsplit & Hrest0).
        exists [], [[]], rest0. now repeat split.
      * cbn [app]. destruct (Re.is_terminal d) eqn:Ed.
        -- exists first, rest_a, rest. now repeat split.
        -- exists [], (first :: rest_a), (first :: rest).
           split; [now rewrite Ha | ]. split; [now rewrite <- Hab | ].
           cbn [filter]. rewrite Hrest. now destruct (nonempty first).
    + rewrite Ha, Hab. exists (c :: first), rest_a, rest. now repeat split.
Qed.

Lemma long_enough_nonempty p : long_enough p = true -> nonempty p = true.
Proof. now destruct p. Qed.

Lemma filter_skips_empty l :
  filter long_enough l = filter long_enough (filter nonempty l).
Proof.
  induction l as [ | p l IH]; [reflexivity | ].
  cbn [filter]. destruct (nonempty p) eqn:Ep; cbn [filter].
  - now rewrite IH.
  - rewrite <- IH. destruct (long_enough p) eqn:El; [ | reflexivity].
    apply long_enough_nonempty in El. congruence.
Qed.

Lemma units_join t a b :
  Re.is_terminal t = true ->
  _split_into_sentences (a ++ t :: b)
  = _split_into_sentences a ++ _split_into_sentences b.
Proof.
  intros Ht.
  destruct (split_join t a b Ht) as (first & rest_a & rest & Ha & Hab & Hrest).
  unfold _split_into_sentences. fold long_enough.
  rewrite Ha, Hab, <- map_app. f_equal. cbn [filter].
  assert (Htail : filter long_enough rest
                  = filter long_enough rest_a
                    ++ filter long_enough (Re.split_terminal b)).
  { rewrite (filter_skips_empty rest), Hrest, filter_app.
    now rewrite <- !filter_skips_empty. }
  rewrite Htail. now destruct (long_enough first).
Qed.

Lemma lstrip_app_kept u v :
  Str.lstrip u <> [] -> Str.lstrip (u ++ v) = Str.lstrip u ++ v.
Proof.
  induction u as [ | c u IH]; cbn [Str.lstrip app]; [congruence | ].
  destruct (Str.isspace c); [exact IH | reflexivity].
Qed.

Lemma lstrip_app_blank u v :
  Str.lstrip u = [] -> Str.lstrip (u ++ v) = Str.lstrip v.
Proof.
  induction u as [ | c u IH]; cbn [Str.lstrip app]; [reflexivity | ].
  destruct (Str.isspace c); [exact IH | discriminate].
Qed.

Lemma rstrip_app_length y x :
  length (Str.rstrip y) <= length (Str.rstrip (y ++ x)).
Proof.
  unfold Str.rstrip. rewrite rev_app_distr, !length_rev.
  destruct (Str.lstrip (rev x)) as [ | c rest] eqn:E.
  - now rewrite (lstrip_app_blank _ _ E).
  - rewrite lstrip_app_kept by (rewrite E; discriminate).
    rewrite length_app, length_rev.
    pose proof (StrFacts.lstrip_length (rev y)) as H.
    rewrite length_rev in H. lia.
Qed.

(** Text added after a document does not shorten its trimmed form. *)
Lemma strip_app_length a x :
  Str.len (Str.strip a) <= Str.len (Str.strip (a ++ x)).
Proof.
  unfold Str.len, Str.strip.
  destruct (Str.lstrip a) as [ | c rest] eqn:E; [cbn; lia | ].
  rewrite lstrip_app_kept by (rewrite E; discriminate).
  rewrite E. apply rstrip_app_length.
Qed.

End JoinFacts.

(** X10. Findings are computed unit by unit, so documents compose: for
    two texts joined by a sentence-terminal character, the units are
    the units of the first text followed by those of the second, and,
    when each text passes the length guard on its own, the findings of
    the joined text are the findings of the first followed by those of
    the second. *)
Theorem joined_documents_compose :
  forall (ML_AVAILABLE : bool) (pipeline : py Pipeline) (t : ascii)
         (a b : str),
    Re.is_terminal t = true ->
    _split_into_sentences (a ++ t :: b)
    = _split_into_sentences a ++ _split_into_sentences b
    /\ (20 <= Str.len (Str.strip a) ->
        20 <= Str.len (Str.strip b) ->
        exists findings_a findings_b,
          detect_defects (__init__ ML_AVAILABLE pipeline) a = Ok findings_a
          /\ detect_defects (__init__ ML_AVAILABLE pipeline) b = Ok findings_b
          /\ detect_defects (__init__ ML_AVAILABLE pipeline) (a ++ t :: b)
             = Ok (findings_a ++ findings_b)).
Proof.
  intros flag pipeline t a b Ht.
  split; [now apply JoinFacts.units_join | ].
  intros Ha Hb.
  pose proof (PipelineFacts.init_compiles flag pipeline) as Htable.
  rewrite !(PipelineFacts.detect_defects_eq _ _ Htable).
  pose proof (JoinFacts.strip_app_length a (t :: b)) as Hab.
  assert (Hguard : forall x, 20 <= Str.len (Str.strip x) ->
                             (Str.len (Str.strip x) <? 20) = false)
    by (intros x Hx; now apply Nat.ltb_ge).
  rewrite (Hguard a Ha), (Hguard b Hb), (Hguard (a ++ t :: b)) by lia.
  eexists. eexists. split; [reflexivity | split; [reflexivity | ]].
  now rewrite (JoinFacts.units_join t a b Ht), flat_map_app.
Qed.

Lemma joined_documents_compose_witness :
  _split_into_sentences
    (lit "Damp patches on the north wall" ++ "!"%char
         :: lit " Rust was found on the steel beam.")
  = _split_into_sentences (lit "Damp patches on the north wall")
    ++ _split_into_sentences (lit " Rust was found on the steel beam.").
Proof.
  exact (proj1 (joined_documents_compose
                  false (Raise ExternalError) "!"%char
                  (lit "Damp patches on the north wall")
                  (lit " Rust was found on the steel beam.")
                  eq_refl)).
Defined.

(** X11. The capabilities of a [HybridDefectDetector] tell how it will
    behave.  Rule-based detection is always reported available; hybrid
    mode is reported exactly when the ML libraries were imported and the
    classifier loaded, which is also exactly when the detector holds a
    classifier; and when hybrid mode is reported off, every finding of
    [detect_defects] is rule_based. *)
Theorem capabilities_tell_the_mode :
  forall (ML_AVAILABLE : bool) (pipeline : py Pipeline),
    let self := HybridDefectDetector.__init__ ML_AVAILABLE pipeline in
    let capabilities := HybridDefectDetector.get_capabilities self in
    HybridDefectDetector.cap_rule_based_available capabilities = true
    /\ HybridDefectDetector.cap_hybrid_mode capabilities
       = HybridDefectDetector.cap_ml_available capabilities
    /\ (HybridDefectDetector.cap_hybrid_mode capabilities = true <->
        ML_AVAILABLE = true /\ exists loaded, pipeline = Ok loaded)
    /\ (HybridDefectDetector.cap_hybrid_mode capabilities = true <->
        classifier (HybridDefectDetector.detector self) <> None)
    /\ (HybridDefectDetector.cap_hybrid_mode capabilities = false ->
        forall text,
        exists findings,
          HybridDefectDetector.detect_defects self text = Ok findings
          /\ Forall (fun f => f_detection_method f = rule_based) findings).
Proof.
  intros flag pipeline self capabilities.
  split; [reflexivity | split; [reflexivity | ]].
  split; [ | split].
  - subst capabilities self. cbn.
    destruct flag, pipeline as [c | e]; cbn; split;
      try discriminate; try (intros [H [c' H']]; discriminate);
      try reflexivity.
    intros _. split; [reflexivity | now exists c].
  - subst capabilities self. cbn.
    destruct flag, pipeline as [c | e]; cbn; split;
      try discriminate; try congruence.
  - intros Hoff text. subst capabilities self.
    unfold HybridDefectDetector.detect_defects,
      HybridDefectDetector.__init__.
    cbn [HybridDefectDetector.detector].
    pose proof (PipelineFacts.init_compiles flag pipeline) as Htable.
    rewrite (PipelineFacts.detect_defects_eq _ _ Htable).
    eexists. split; [reflexivity | ].
    destruct (Str.len (Str.strip text) <? 20); [constructor | ].
    apply Forall_forall. intros f Hin.
    apply in_flat_map in Hin as [u [Hu Hin]].
    rewrite CoverageFacts.findings_of_rules_only in Hin.
    + destruct (Str.len (Str.strip u) <? 15); [destruct Hin | ].
      apply in_map_iff in Hin as [r [<- _]]. reflexivity.
    + unfold ml_results_of.
      destruct flag, pipeline as [c | e]; cbn in Hoff;
        try discriminate Hoff; reflexivity.
Qed.

(** * Facts about the caller *)

Module AppFacts.

Lemma contains_char c x : Str.contains [c] x = true <-> In c x.
Proof.
  rewrite StrFacts.contains_iff. unfold substring. split.
  - intros (pre & post & ->). apply in_or_app. right. now left.
  - intros H. apply in_split in H as (pre & post & ->). now exists pre, post.
Qed.

Lemma rsplit1_without sep x :
  ~ In sep x -> AppFixed.rsplit1 sep x = [x].
Proof.
  induction x as [ | c x IH]; intros H; [reflexivity | ].
  cbn [AppFixed.rsplit1]. rewrite IH by (intros Hin; apply H; now right).
  destruct (Ascii.eqb c sep) eqn:E; [ | reflexivity].
  apply Ascii.eqb_eq in E. subst c. exfalso. apply H. now left.
Qed.

Lemma rsplit1_at sep stem ext :
  ~ In sep ext ->
  AppFixed.rsplit1 sep (stem ++ sep :: ext) = [stem; ext].
Proof.
  intros H. induction stem as [ | c stem IH].
  - cbn [app AppFixed.rsplit1]. rewrite (rsplit1_without _ _ H).
    now rewrite Ascii.eqb_refl.
  - cbn [app AppFixed.rsplit1]. now rewrite IH.
Qed.

Lemma last_occurrence (sep : ascii) x :
  In sep x ->
  exists stem ext, x = stem ++ sep :: ext /\ ~ In sep ext.
Proof.
  induction x as [ | c x IH]; [intros [] | intros H].
  destruct (in_dec ascii_dec sep x) as [Hin | Hnot].
  - destruct (IH Hin) as (stem & ext & -> & Hext).
    now exists (c :: stem), ext.
  - destruct H as [-> | H]; [ | contradiction].
    now exists [], x.
Qed.

End AppFacts.

(** X12. [allowed_file] never raises and looks at the text after the
    last dot only: it accepts a file name exactly when the name has the
    form stem.ext, with no dot in ext and ext, lower-cased, one of pdf,
    docx and doc.  The stem is free: it may be empty and may hold other
    dots. *)
Theorem allowed_file_checks_last_extension :
  forall filename : str,
  exists allowed,
    AppFixed.allowed_file filename = Ok allowed
    /\ (allowed = true <->
        exists stem ext,
          filename = stem ++ "."%char :: ext
          /\ ~ In "."%char ext
          /\ In (Str.lower ext) AppFixed.ALLOWED_EXTENSIONS).
Proof.
  intros filename. unfold AppFixed.allowed_file.
  change (lit ".") with ["."%char].
  destruct (Str.contains ["."%char] filename) eqn:Edot.
  - apply AppFacts.contains_char in Edot.
    destruct (AppFacts.last_occurrence _ _ Edot) as (stem & ext & -> & Hext).
    rewrite (AppFacts.rsplit1_at _ _ _ Hext). cbn [AppFixed.index nth_error bind].
    eexists. split; [reflexivity | ]. rewrite existsb_exists. split.
    + intros [known [Hin Heq]]. apply CoverageFacts.str_eqb_eq in Heq.
      exists stem, ext. split; [reflexivity | split; [exact Hext | ]].
      now rewrite Heq.
    + intros (stem' & ext' & Hname & Hext' & Hin).
      assert (Hsame : [stem; ext] = [stem'; ext']).
      { rewrite <- (AppFacts.rsplit1_at "."%char stem ext Hext), Hname.
        now apply AppFacts.rsplit1_at. }
      injection Hsame as _ <-.
      exists (Str.lower ext). split; [exact Hin | ].
      unfold Str.eqb. now destruct (list_eq_dec ascii_dec _ _).
  - exists false. split; [reflexivity | ]. split; [discriminate | ].
    intros (stem & ext & -> & _). exfalso.
    assert (H : Str.contains ["."%char] (stem ++ "."%char :: ext) = true).
    { apply AppFacts.contains_char. apply in_or_app. right. now left. }
    congruence.
Qed.

(** * Facts about the fallback detector *)

Module FallbackFacts.

Lemma atom_matches_lowered a c :
  ReIgnoreCase.atom_matches a c
  = Re.atom_matches (lower_atom a) (Str.lower_char c).
Proof.
  destruct a as [x | members]; cbn; [reflexivity | ].
  now rewrite WordFacts.existsb_map.
Qed.

(** A case-insensitive match is a match of the lower-cased pattern on
    the lower-cased text. *)
Lemma match_here_lowered r : forall x,
  ReIgnoreCase.match_here r x = Re.match_here (lower_items r) (Str.lower x).
Proof.
  induction r as [ | it r IH]; intros x; [reflexivity | ].
  cbn [ReIgnoreCase.match_here lower_items map Re.match_here
       Re.it_atom Re.it_optional].
  fold (lower_items r). rewrite IH. f_equal.
  destruct x as [ | c x']; [reflexivity | ].
  cbn [Str.lower map]. fold (Str.lower x').
  now rewrite atom_matches_lowered, IH.
Qed.

Lemma search_from_lowered r x :
  ReIgnoreCase.search_from r x
  = Re.search_from (lower_items r) (Str.lower x).
Proof.
  induction x as [ | c x IH].
  - cbn [ReIgnoreCase.search_from Str.lower map Re.search_from].
    f_equal. apply (match_here_lowered r []).
  - cbn [ReIgnoreCase.search_from Str.lower map Re.search_from].
    fold (Str.lower x). rewrite IH. f_equal.
    apply (match_here_lowered r (c :: x)).
Qed.

Lemma fallback_patterns_compile :
  table_compiles AppFixed.defect_patterns = true.
Proof. vm_compute. reflexivity. Qed.

Lemma search_ignorecase_compiled p x :
  compiles p = true ->
  ReIgnoreCase.search p x = Ok (found_ignorecase p x).
Proof.
  unfold compiles, ReIgnoreCase.search, found_ignorecase.
  destruct (Re.compile p); [reflexivity | discriminate].
Qed.

Lemma fallback_patterns_eq c patterns sentence :
  forallb compiles patterns = true ->
  AppFixed.fallback_patterns c patterns sentence
  = Ok (if existsb (fun p => found_ignorecase p sentence) patterns
        then Some (fallback_finding sentence (c, patterns))
        else None).
Proof.
  induction patterns as [ | p patterns IH]; intros H; [reflexivity | ].
  cbn [forallb] in H. apply andb_true_iff in H as [Hp Hrest].
  cbn [AppFixed.fallback_patterns existsb].
  rewrite (search_ignorecase_compiled _ _ Hp). cbn [bind].
  destruct (found_ignorecase p sentence); cbn [orb]; [reflexivity | ].
  rewrite (IH Hrest). now destruct (existsb _ patterns).
Qed.

Lemma fallback_items_eq table sentence : forall defects,
  table_compiles table = true ->
  AppFixed.fallback_items table sentence defects
  = Ok (defects
        ++ map (fallback_finding sentence)
               (filter (fallback_hit sentence) table)).
Proof.
  induction table as [ | [c patterns] table IH]; intros defects H.
  - simpl. now rewrite app_nil_r.
  - cbn [table_compiles forallb snd] in H.
    apply andb_true_iff in H as [Hp Hrest].
    cbn [AppFixed.fallback_items filter].
    rewrite (fallback_patterns_eq _ _ _ Hp). cbn [bind].
    unfold fallback_hit at 1. cbn [snd].
    destruct (existsb _ patterns).
    + rewrite (IH _ Hrest). cbn [map]. now rewrite <- app_assoc.
    + exact (IH _ Hrest).
Qed.

Lemma fallback_sentences_eq sentences : forall defects,
  AppFixed.fallback_sentences sentences defects
  = Ok (defects ++ flat_map fallback_of sentences).
Proof.
  induction sentences as [ | piece rest IH]; intros defects.
  - simpl. now rewrite app_nil_r.
  - cbn [AppFixed.fallback_sentences flat_map]. unfold fallback_of at 1.
    cbn zeta. destruct (Str.len (Str.strip piece) <? 10).
    + exact (IH defects).
    + rewrite (fallback_items_eq _ _ _ fallback_patterns_compile).
      cbn [bind]. rewrite IH. now rewrite <- app_assoc.
Qed.

Lemma split_on_clean sep x :
  Forall (fun piece => ~ In sep piece) (AppFixed.split_on sep x).
Proof.
  induction x as [ | c x IH]; [repeat constructor; intros [] | ].
  cbn [AppFixed.split_on]. destruct (Ascii.eqb c sep) eqn:E.
  - constructor; [intros [] | exact IH].
  - apply Ascii.eqb_neq in E.
    destruct (AppFixed.split_on sep x) as [ | piece rest].
    + repeat constructor. intros [-> | []]. now apply E.
    + inversion IH as [ | p ps Hp Hrest]; subst.
      constructor; [ | exact Hrest]. intros [-> | Hin]; [now apply E | ].
      now apply Hp.
Qed.

Lemma strip_sublist x c : In c (Str.strip x) -> In c x.
Proof.
  intros H. unfold Str.strip in H.
  destruct (PipelineFacts.lstrip_suffix x) as [spaces Hx].
  destruct (PipelineFacts.rstrip_prefix (Str.lstrip x)) as [spaces' Hy].
  rewrite Hx, Hy. apply in_or_app. right. apply in_or_app. now left.
Qed.

(** Every word of a fallback pattern holds a keyword of the category in
    the main detector. *)
Lemma fallback_words_covered c :
  forallb (fun w => existsb (fun k => Str.contains k w) (keywords c))
          (fallback_words c) = true.
Proof. destruct c; vm_compute; reflexivity. Qed.

(** A keyword in the lower-cased sentence makes the main classifier
    report the category. *)
Lemma keyword_hits c keyword sentence :
  In keyword (keywords c) ->
  substring keyword (Str.lower sentence) ->
  In c (map r_type (rule_results rule_patterns sentence)).
Proof.
  intros Hk Hsub. apply WordFacts.category_hit_words.
  destruct (WordFacts.keywords_cover c) as [_ Hwords].
  rewrite forallb_forall in Hwords. specialize (Hwords keyword Hk).
  apply existsb_exists in Hwords as [w [Hw Heq]].
  apply CoverageFacts.str_eqb_eq in Heq. subst w. now exists keyword.
Qed.

Lemma fallback_hit_is_main_hit sentence entry :
  In entry AppFixed.defect_patterns ->
  fallback_hit sentence entry = true ->
  In (fst entry) (map r_type (rule_results rule_patterns sentence)).
Proof.
  intros Hentry Hhit. unfold fallback_hit in Hhit.
  apply existsb_exists in Hhit as [p [Hp Hfound]].
  unfold found_ignorecase in Hfound.
  destruct (Re.compile p) as [r | ] eqn:Ecompile; [ | discriminate].
  rewrite search_from_lowered, WordFacts.search_from_words in Hfound.
  apply existsb_exists in Hfound as [w [Hw Hsub]].
  apply StrFacts.contains_iff in Hsub.
  assert (Hword : In w (fallback_words (fst entry))).
  { unfold fallback_words. apply in_flat_map. exists entry.
    split; [exact Hentry | ]. unfold Category_eqb.
    destruct (Category_eq_dec (fst entry) (fst entry)); [ | congruence].
    apply in_flat_map. exists p. split; [exact Hp | ].
    now rewrite Ecompile. }
  pose proof (fallback_words_covered (fst entry)) as Hcover.
  rewrite forallb_forall in Hcover. specialize (Hcover w Hword).
  apply existsb_exists in Hcover as [k [Hk Hkw]].
  apply StrFacts.contains_iff in Hkw.
  apply (keyword_hits _ k); [exact Hk | ].
  exact (WordFacts.substring_trans _ _ _ Hkw Hsub).
Qed.

End FallbackFacts.

(** X13. [detect_defects_fallback] never raises.  Each of its findings
    quotes a piece of the text between full stops, trimmed, of at least
    10 characters and without a full stop, always with confidence 0.7
    and severity Medium; there are at most seven findings per piece. *)
Theorem fallback_findings_shape :
  forall text : str,
  exists findings,
    AppFixed.detect_defects_fallback text = Ok findings
    /\ Forall (fun f =>
                 (exists piece,
                     In piece (AppFixed.split_on "." text)
                     /\ AppFixed.ff_sentence f = Str.strip piece)
                 /\ Str.strip (AppFixed.ff_sentence f) = AppFixed.ff_sentence f
                 /\ 10 <= Str.len (AppFixed.ff_sentence f)
                 /\ ~ In "."%char (AppFixed.ff_sentence f)
                 /\ AppFixed.ff_confidence f = 0.7%float
                 /\ AppFixed.ff_severity f = Medium)
              findings
    /\ length findings <= 7 * length (AppFixed.split_on "." text).
Proof.
  intros text. unfold AppFixed.detect_defects_fallback.
  rewrite FallbackFacts.fallback_sentences_eq. cbn [app].
  eexists. split; [reflexivity | ]. split.
  - apply Forall_forall. intros f Hin.
    apply in_flat_map in Hin as [piece [Hpiece Hin]].
    unfold fallback_of in Hin. cbn zeta in Hin.
    destruct (Str.len (Str.strip piece) <? 10) eqn:Elen; [destruct Hin | ].
    apply Nat.ltb_ge in Elen.
    apply in_map_iff in Hin as [entry [<- _]]. cbn.
    split; [now exists piece | ].
    split; [apply PipelineFacts.strip_idem | ].
    split; [exact Elen | ].
    split; [ | now split].
    intros Hdot. apply FallbackFacts.strip_sublist in Hdot.
    pose proof (FallbackFacts.split_on_clean "."%char text) as Hclean.
    rewrite Forall_forall in Hclean. exact (Hclean piece Hpiece Hdot).
  - apply CoverageFacts.flat_map_length_bound. intros piece _.
    unfold fallback_of. cbn zeta.
    destruct (Str.len (Str.strip piece) <? 10); [cbn; lia | ].
    rewrite length_map.
    exact (filter_length_le _ AppFixed.defect_patterns).
Qed.

(** X14. On text whose characters are code points up to U+00FF, the
    fallback never reports a category that the detector would not
    report: for every finding of [detect_defects_fallback], the
    rule-based classifier of the detector has a match of the same
    category on the same sentence.  The bound on the characters is
    needed: the case-insensitive search of the fallback accepts U+017F
    for s and U+0131 for i, which the lower-casing of the detector
    leaves as they are. *)
Theorem fallback_category_is_a_detector_category :
  forall text : str,
  exists findings,
    AppFixed.detect_defects_fallback text = Ok findings
    /\ Forall (fun f =>
                 exists results,
                   _rule_based_classify rules_only_detector
                                        (AppFixed.ff_sentence f)
                   = Ok results
                   /\ In (AppFixed.ff_type f) (map r_type results))
              findings.
Proof.
  intros text. unfold AppFixed.detect_defects_fallback.
  rewrite FallbackFacts.fallback_sentences_eq. cbn [app].
  eexists. split; [reflexivity | ].
  apply Forall_forall. intros f Hin.
  apply in_flat_map in Hin as [piece [_ Hin]].
  unfold fallback_of in Hin. cbn zeta in Hin.
  destruct (Str.len (Str.strip piece) <? 10); [destruct Hin | ].
  apply in_map_iff in Hin as [entry [<- Hentry]].
  apply filter_In in Hentry as [Hentry Hhit].
  cbn [AppFixed.ff_sentence AppFixed.ff_type fallback_finding].
  unfold rules_only_detector.
  rewrite (RuleFacts.rule_based_classify_eq _ _
             (PipelineFacts.init_compiles false (Raise ExternalError))).
  eexists. split; [reflexivity | ].
  now apply FallbackFacts.fallback_hit_is_main_hit.
Qed.

(** * The merger and the secondary signal *)

Module SecondaryFacts.


End SecondaryFacts.


